(** * grout: the grcli manual-page renderer (src/cli/man_main.c, src/cli/man_commands.c)

    A shallow embedding of the renderer that walks an ecoli grammar tree and
    prints a manual page, followed by the properties of the command resolver,
    the argument collector, the synopsis renderer, the cross-reference
    classifier and the option printer.

    Conventions of the embedding.
    - C strings are values of [string], without their terminator and with no
      NUL character inside; [strcmp (a, b) == 0] is [String.eqb a b] and a
      [const char *] that may be NULL is an [option string].
    - The grammar tree belongs to the ecoli library.  A node is seen through the
      accessors the renderer calls: the name of its type, its id, its help
      attribute, its description and its children.  A child slot holds [None]
      when [ec_node_get_child] would return a negative value for it.
    - [printf] to stdout appends to the [out] field of the [world], [fprintf
      (stderr, ...)] to its [err] field.  Functions that only print to stdout
      and touch nothing else return the printed text.
    - [realloc] and [strdup] ask the [oracle] of the world whether they
      succeed; [live] counts the blocks obtained from them and not released
      yet.  The strings [ec_node_desc] allocates are freed where they were
      printed and are not counted. *)

From Stdlib Require Import String Ascii List ZArith Bool Arith Lia.
Import ListNotations.

Set Warnings "-register-all".

Local Open Scope list_scope.
Local Open Scope string_scope.
Local Open Scope Z_scope.

(** ** Characters and constants of the C environment *)

Definition LF : string := String "010"%char EmptyString.
Definition DQUOTE : string := String "034"%char EmptyString.
Definition SPACE : ascii := " "%char.

Definition EXIT_SUCCESS : Z := 0.
Definition EXIT_FAILURE : Z := 1.
Definition ENOMEM : Z := 12.

(** ** man.h *)

Inductive ec_node_type_enum : Type :=
  | NODE_TYPE_STR
  | NODE_TYPE_UINT
  | NODE_TYPE_INT
  | NODE_TYPE_DYN
  | NODE_TYPE_RE
  | NODE_TYPE_OR
  | NODE_TYPE_SEQ
  | NODE_TYPE_CMD
  | NODE_TYPE_OPTION
  | NODE_TYPE_MANY
  | NODE_TYPE_SUBSET
  | NODE_TYPE_UNKNOWN.

(** ** The grammar node, as the ecoli accessors show it *)

Inductive ec_node : Type :=
  | Node (type_name : string)
         (id : option string)
         (help : option string)
         (desc : option string)
         (children : list (option ec_node)).

(** [ec_node_type (node)->name] *)
Definition ec_node_type_name (node : ec_node) : string :=
  match node with Node tn _ _ _ _ => tn end.

(** [ec_node_id (node)] *)
Definition ec_node_id (node : ec_node) : option string :=
  match node with Node _ i _ _ _ => i end.

(** [ec_dict_get (ec_node_attrs (node), HELP_ATTR)] *)
Definition ec_node_help (node : ec_node) : option string :=
  match node with Node _ _ h _ _ => h end.

(** [ec_node_desc (node)] *)
Definition ec_node_desc (node : ec_node) : option string :=
  match node with Node _ _ _ d _ => d end.

Definition ec_node_children (node : ec_node) : list (option ec_node) :=
  match node with Node _ _ _ _ l => l end.

(** [ec_node_get_children_count (node)] *)
Definition ec_node_get_children_count (node : ec_node) : nat :=
  List.length (ec_node_children node).

(** [ec_node_get_child (node, i, &child, &refs)]: [None] stands for a negative
    return value. *)
Definition ec_node_get_child (node : ec_node) (i : nat) : option ec_node :=
  match nth_error (ec_node_children node) i with
  | Some (Some child) => Some child
  | _ => None
  end.

(** Induction over a tree: the property may be assumed of every retrievable
    child. *)
Definition children_all (P : ec_node -> Prop) (kids : list (option ec_node)) : Prop :=
  Forall (fun k : option ec_node =>
            match k with
            | Some child => P child
            | None => True
            end) kids.

Fixpoint ec_node_tree_ind (P : ec_node -> Prop)
    (step : forall type id help desc kids,
        children_all P kids -> P (Node type id help desc kids))
    (node : ec_node) {struct node} : P node :=
  match node with
  | Node type id help desc kids =>
      step type id help desc kids
        ((fix all (l : list (option ec_node)) : children_all P l :=
            match l with
            | [] => Forall_nil _
            | None :: rest => Forall_cons None I (all rest)
            | Some child :: rest =>
                Forall_cons (Some child) (ec_node_tree_ind P step child) (all rest)
            end) kids)
  end.

(** ** man_main.c *)

Definition get_node_type_of_name (type : string) : ec_node_type_enum :=
  if String.eqb type "str" then NODE_TYPE_STR
  else if String.eqb type "uint" then NODE_TYPE_UINT
  else if String.eqb type "int" then NODE_TYPE_INT
  else if String.eqb type "dyn" then NODE_TYPE_DYN
  else if String.eqb type "re" then NODE_TYPE_RE
  else if String.eqb type "or" then NODE_TYPE_OR
  else if String.eqb type "seq" then NODE_TYPE_SEQ
  else if String.eqb type "cmd" then NODE_TYPE_CMD
  else if String.eqb type "option" then NODE_TYPE_OPTION
  else if String.eqb type "many" then NODE_TYPE_MANY
  else if String.eqb type "subset" then NODE_TYPE_SUBSET
  else NODE_TYPE_UNKNOWN.

Definition get_node_type (node : ec_node) : ec_node_type_enum :=
  get_node_type_of_name (ec_node_type_name node).

(** [for (i = 0; i < len; i++) putchar ('=')] *)
Fixpoint repeat_eq (len : nat) : string :=
  match len with
  | O => EmptyString
  | S k => String "="%char (repeat_eq k)
  end.

Definition man_print_title_underline (title : string) : string :=
  repeat_eq (String.length title) ++ LF ++ LF.

Inductive syntax_print_mode : Type :=
  | SYNOPSIS_MODE
  | OPTION_MODE.

(** [toupper] in the C locale. *)
Definition toupper (c : ascii) : ascii :=
  let n := nat_of_ascii c in
  if (Nat.leb 97 n && Nat.leb n 122)%bool then ascii_of_nat (n - 32)%nat else c.

Fixpoint string_toupper (s : string) : string :=
  match s with
  | EmptyString => EmptyString
  | String c r => String (toupper c) (string_toupper r)
  end.

(** The loop of [print_option_syntax] over the members of an alternation; it
    occurs twice in the source, with the same body.  [first] is the local flag
    of the source; the printed text is returned. *)
Fixpoint print_flag_names (mode : syntax_print_mode) (members : list (option ec_node))
    (first : bool) : string :=
  match members with
  | [] => EmptyString
  | None :: rest => print_flag_names mode rest first
  | Some str_node :: rest =>
      match ec_node_desc str_node with
      | None => print_flag_names mode rest first
      | Some desc =>
          match mode, first with
          | SYNOPSIS_MODE, false => print_flag_names mode rest first
          | SYNOPSIS_MODE, true => "**" ++ desc ++ "**" ++ print_flag_names mode rest false
          | OPTION_MODE, true => "**" ++ desc ++ "**" ++ print_flag_names mode rest false
          | OPTION_MODE, false => ", " ++ "**" ++ desc ++ "**" ++ print_flag_names mode rest false
          end
      end
  end.

(** ** The world the renderer runs in *)

Record world : Type := World {
  out : string;          (* what was written to stdout *)
  err : string;          (* what was written to stderr *)
  errno : Z;
  oracle : list bool;    (* outcome of the next allocation requests; all succeed once it is empty *)
  live : nat;            (* blocks obtained from realloc or strdup and not freed yet *)
  fault : bool           (* a NULL string was dereferenced *)
}.

Definition printf (s : string) (w : world) : world :=
  World (out w ++ s) (err w) (errno w) (oracle w) (live w) (fault w).

Definition fprintf_stderr (s : string) (w : world) : world :=
  World (out w) (err w ++ s) (errno w) (oracle w) (live w) (fault w).

Definition set_errno (e : Z) (w : world) : world :=
  World (out w) (err w) e (oracle w) (live w) (fault w).

Definition set_live (n : nat) (w : world) : world :=
  World (out w) (err w) (errno w) (oracle w) n (fault w).

Definition set_fault (w : world) : world :=
  World (out w) (err w) (errno w) (oracle w) (live w) true.

(** One allocation request: the answer of the oracle and the world with that
    answer consumed. *)
Definition alloc_request (w : world) : bool * world :=
  match oracle w with
  | [] => (true, w)
  | b :: rest => (b, World (out w) (err w) (errno w) rest (live w) (fault w))
  end.

(** Modelled from the spec: [errno_set] of gr_errno.h, a header outside
    src/cli.  The allocation-failure signal of the collector is the negated
    error number, which is stored in [errno] as well. *)
Definition errno_set (errnum : Z) (w : world) : Z * world :=
  (- errnum, set_errno errnum w).

(** [strdup]: a new block on success, NULL and ENOMEM otherwise. *)
Definition strdup (s : string) (w : world) : option string * world :=
  let '(ok, w1) := alloc_request w in
  if ok then (Some s, set_live (S (live w1)) w1)
  else (None, set_errno ENOMEM w1).

(** [free] of a block obtained from [strdup] or [realloc]. *)
Definition free_block (w : world) : world :=
  set_live (Nat.pred (live w)) w.

(** ** man_commands.c *)

Record arg_entry : Type := ArgEntry {
  arg_id : string;
  arg_node : ec_node
}.

(** The pair [(struct arg_entry *args, unsigned count)]: [None] is the NULL
    pointer (with count 0), [Some l] a live block holding the [length l]
    entries of [l]. *)
Definition arg_vec : Type := option (list arg_entry).

Definition vec_entries (args : arg_vec) : list arg_entry :=
  match args with
  | None => []
  | Some l => l
  end.

(** [realloc] of the block to [count + 1] entries followed, on success, by the
    store of the new entry at index [count].  On failure the old block stays
    as it was. *)
Definition realloc_push (args : arg_vec) (e : arg_entry) (w : world) : option arg_vec * world :=
  let '(ok, w1) := alloc_request w in
  if ok then
    (Some (Some (vec_entries args ++ [e])%list),
     match args with
     | None => set_live (S (live w1)) w1
     | Some _ => w1
     end)
  else (None, w1).

(** [free (args)]: nothing happens on NULL. *)
Definition free_args (args : arg_vec) (w : world) : world :=
  match args with
  | None => w
  | Some _ => free_block w
  end.

Fixpoint find_arg (args : list arg_entry) (id : string) : bool :=
  match args with
  | [] => false
  | e :: rest => if String.eqb (arg_id e) id then true else find_arg rest id
  end.

(** The entries handed to [print_argument_help] carry a real id; for a NULL id
    the text is the one glibc prints. *)
Definition print_argument_help (node : ec_node) : string :=
  let id := match ec_node_id node with Some i => i | None => "(null)" end in
  "#### _" ++ id ++ "_" ++ LF ++ LF ++
  match ec_node_help node with
  | Some help => help ++ LF ++ LF
  | None =>
      match get_node_type node with
      | NODE_TYPE_UINT => "Unsigned integer." ++ LF ++ LF
      | NODE_TYPE_INT => "Integer." ++ LF ++ LF
      | NODE_TYPE_STR => "String." ++ LF ++ LF
      | NODE_TYPE_DYN => "Dynamic value." ++ LF ++ LF
      | _ => EmptyString
      end
  end.

Fixpoint is_valid_type (type : string) (types : list string) : bool :=
  match types with
  | [] => false
  | t :: rest => if String.eqb type t then true else is_valid_type type rest
  end.

Definition argument_types : list string := ["uint"; "int"; "dyn"; "re"].

(** [strchr (s, c)], as the offset of the first occurrence of [c] in [s]. *)
Fixpoint strchr (s : string) (c : ascii) : option nat :=
  match s with
  | EmptyString => None
  | String a rest =>
      if Ascii.eqb a c then Some O
      else match strchr rest c with
           | Some k => Some (S k)
           | None => None
           end
  end.

(** The C string that starts [k] characters into [s]. *)
Definition string_from (k : nat) (s : string) : string :=
  substring k (String.length s - k) s.

(** The first [k] characters of [s]: what [%.*s] prints with precision [k],
    and what is left of [s] once its character at offset [k] is overwritten
    with the terminator. *)
Definition string_upto (k : nat) (s : string) : string :=
  substring 0 k s.

(** The [for] loops over the children of a node that only print: [body i
    child] is the text printed for the child at index [i]; a child whose lookup
    fails is skipped ([continue]). *)
Definition for_children (body : nat -> ec_node -> string)
    : list (option ec_node) -> nat -> string :=
  fix loop (kids : list (option ec_node)) (i : nat) : string :=
    match kids with
    | [] => EmptyString
    | None :: rest => loop rest (S i)
    | Some child :: rest => body i child ++ loop rest (S i)
    end.

(** The four flags of [print_command_details]. *)
Record xref_flags : Type := XrefFlags {
  has_iface : bool;
  has_vrf : bool;
  has_nexthop : bool;
  has_address : bool
}.

(** The body of the classification loop of [print_command_details]. *)
Definition classify_argument (f : xref_flags) (e : arg_entry) : xref_flags :=
  let arg_id := arg_id e in
  if (String.eqb arg_id "IFACE" || String.eqb arg_id "NAME")%bool then
    XrefFlags true (has_vrf f) (has_nexthop f) (has_address f)
  else if String.eqb arg_id "VRF" then
    XrefFlags (has_iface f) true (has_nexthop f) (has_address f)
  else if (String.eqb arg_id "NH" || String.eqb arg_id "NH_ID"
           || String.eqb arg_id "SEGLIST")%bool then
    XrefFlags (has_iface f) (has_vrf f) true (has_address f)
  else if (String.eqb arg_id "ADDR" || String.eqb arg_id "IP"
           || String.eqb arg_id "DEST")%bool then
    XrefFlags (has_iface f) (has_vrf f) (has_nexthop f) true
  else f.

(** The classification loop, from all four flags at 0. *)
Definition classify_arguments (args : list arg_entry) : xref_flags :=
  fold_left classify_argument args (XrefFlags false false false false).

(** The SEE ALSO section of [print_command_details]. *)
Definition print_see_also (ctx_name : string) (f : xref_flags) : string :=
  "# SEE ALSO" ++ LF ++ LF ++
  "**grcli**(1)" ++
  (if (has_iface f && negb (String.eqb ctx_name "interface"))%bool
   then ", **grcli-interface**(1)" else EmptyString) ++
  (if (has_address f && negb (String.eqb ctx_name "address"))%bool
   then ", **grcli-address**(1)" else EmptyString) ++
  (if (has_nexthop f && negb (String.eqb ctx_name "nexthop"))%bool
   then ", **grcli-nexthop**(1)" else EmptyString) ++
  (if (has_vrf f && negb (String.eqb ctx_name "route"))%bool
   then ", **grcli-route**(1)" else EmptyString) ++
  LF.

(** The loop that prints the help of every collected argument. *)
Fixpoint print_arguments_help (args : list arg_entry) : string :=
  match args with
  | [] => EmptyString
  | e :: rest => print_argument_help (arg_node e) ++ print_arguments_help rest
  end.

Fixpoint get_command_help_loop (kids : list (option ec_node)) : option string :=
  match kids with
  | [] => None
  | None :: rest => get_command_help_loop rest
  | Some cmd_node :: rest =>
      match ec_node_help cmd_node with
      | Some help => Some help
      | None => get_command_help_loop rest
      end
  end.

Definition get_command_help (or_node : ec_node) : option string :=
  get_command_help_loop (ec_node_children or_node).

(** ** Sample grammar trees *)

(** A fresh process: nothing printed, an allocator that never refuses. *)
Definition sample_world : world :=
  World EmptyString EmptyString 0 [] 0 false.

(** The same, with an allocator that refuses its second request. *)
Definition sample_tight_world : world :=
  World EmptyString EmptyString 0 [true; false] 0 false.

Definition sample_leaf (type : string) (id : string) (desc : option string) : ec_node :=
  Node type (Some id) None desc [].

Definition sample_ping : ec_node :=
  Node "cmd" (Some "ping IFACE") (Some "Send ICMP echo requests.") None
    [Some (sample_leaf "str" "no-id" (Some "ping"));
     Some (sample_leaf "dyn" "IFACE" None)].

Definition sample_router : ec_node :=
  Node "cmd" (Some "router show") (Some "Show the router state.") None
    [Some (sample_leaf "str" "no-id" (Some "router"));
     Some (sample_leaf "str" "no-id" (Some "show"))].

Definition sample_route_add : ec_node :=
  Node "cmd" (Some "no-id") (Some "Add a route.") None
    [Some (sample_leaf "str" "no-id" (Some "add"));
     Some (sample_leaf "re" "DEST" None);
     Some (Node "or" (Some "no-id") None None
             [Some (sample_leaf "uint" "NH_ID" None);
              Some (sample_leaf "dyn" "IFACE" None)]);
     Some (sample_leaf "uint" "VRF" None)].

Definition sample_route_del : ec_node :=
  Node "seq" (Some "no-id") None None
    [Some (Node "str" (Some "no-id") (Some "Delete a route.") (Some "del") []);
     Some (sample_leaf "re" "DEST" None);
     Some (sample_leaf "uint" "VRF" None)].

Definition sample_route_alternation : ec_node :=
  Node "or" (Some "route") None None
    [Some sample_route_add; Some sample_route_del].

Definition sample_route_literal : ec_node :=
  Node "str" (Some "no-id") (Some "Manage routes.") (Some "route") [].

Definition sample_route : ec_node :=
  Node "seq" (Some "no-id") None None
    [Some sample_route_literal; Some sample_route_alternation].

Definition sample_cmdlist : ec_node :=
  Node "or" (Some "no-id") None None
    [Some sample_ping; Some sample_router; Some sample_route;
     Some (sample_leaf "str" "no-id" (Some "quit"))].

(** A Sequence whose child 0 is no Literal and whose child 1 is no
    Alternation. *)
Definition sample_untyped_route : ec_node :=
  Node "seq" (Some "no-id") None None
    [Some (sample_leaf "uint" "COUNT" None);
     Some (Node "seq" (Some "route") None None [])].

(** A Literal followed by an Alternation that was given no id. *)
Definition sample_anonymous_group : ec_node :=
  Node "seq" (Some "no-id") None None
    [Some (sample_leaf "str" "no-id" (Some "show"));
     Some (Node "or" (Some "no-id") None None
             [Some (sample_leaf "str" "no-id" (Some "stats"))])].

(** An option whose first child is a Sequence with one child. *)
Definition sample_short_option : ec_node :=
  Node "option" (Some "no-id") (Some "Show usage help and exit.") None
    [Some (Node "seq" (Some "no-id") None None
             [Some (Node "or" (Some "no-id") None None
                      [Some (sample_leaf "str" "no-id" (Some "-h"));
                       Some (sample_leaf "str" "no-id" (Some "--help"))])])].

(** The entries of the cross-reference example of the specification. *)
Definition sample_entries : list arg_entry :=
  [ArgEntry "IFACE" (sample_leaf "dyn" "IFACE" None);
   ArgEntry "VRF" (sample_leaf "uint" "VRF" None)].

(** A verbosity switch that may be left out, and a set of interface
    attributes that may come in any order. *)
Definition sample_optional : ec_node :=
  Node "option" (Some "no-id") None None
    [Some (sample_leaf "str" "no-id" (Some "verbose"))].

Definition sample_subset : ec_node :=
  Node "subset" (Some "no-id") None None
    [Some (Node "seq" (Some "no-id") None None
             [Some (sample_leaf "str" "no-id" (Some "mtu"));
              Some (sample_leaf "uint" "MTU" None)]);
     Some (sample_leaf "str" "no-id" (Some "up"))].

(** The entries of the cross-reference example once more, in another order
    and with a repetition. *)
Definition sample_entries_shuffled : list arg_entry :=
  [ArgEntry "VRF" (sample_leaf "uint" "VRF" None);
   ArgEntry "IFACE" (sample_leaf "dyn" "IFACE" None);
   ArgEntry "VRF" (sample_leaf "int" "VRF" None)].



(** An option with two flag names and an argument. *)
Definition sample_socket_option : ec_node :=
  Node "option" (Some "no-id") (Some "Path to the control plane API socket.") None
    [Some (Node "seq" (Some "no-id") None None
             [Some (Node "or" (Some "no-id") None None
                      [Some (sample_leaf "str" "no-id" (Some "-s"));
                       Some (sample_leaf "str" "no-id" (Some "--socket"))]);
              Some (sample_leaf "str" "path" (Some "<path>"))])].

Section Renderer.

(** The id ecoli gives to a node that was created without one ([EC_NO_ID] of
    ecoli.h) and the version string of gr_version.h.  Both headers live
    outside src/cli; nothing below depends on their values. *)
Variable EC_NO_ID : string.
Variable GROUT_VERSION : string.

(** [id != NULL && strcmp (id, EC_NO_ID) != 0] *)
Definition has_real_id (id : option string) : bool :=
  match id with
  | None => false
  | Some i => negb (String.eqb i EC_NO_ID)
  end.

(** *** man_main.c, continued *)

Definition print_option_syntax (cmd_node : ec_node) (mode : syntax_print_mode) : string :=
  match ec_node_get_child cmd_node 0 with
  | None => EmptyString
  | Some child =>
      let opening :=
        match mode with
        | SYNOPSIS_MODE => "["
        | OPTION_MODE => "#### "
        end in
      let closing (arg_name : option string) :=
        match arg_name with
        | Some a => " _" ++ string_toupper a ++ "_"
        | None => EmptyString
        end ++
        match mode with
        | SYNOPSIS_MODE => "]" ++ LF
        | OPTION_MODE =>
            LF ++ LF ++
            match ec_node_help cmd_node with
            | Some help => help ++ LF ++ LF
            | None => EmptyString
            end
        end in
      match get_node_type child with
      | NODE_TYPE_OR =>
          opening ++ print_flag_names mode (ec_node_children child) true ++ closing None
      | NODE_TYPE_SEQ =>
          if (ec_node_get_children_count child <? 2)%nat then opening
          else
            opening ++
            match ec_node_get_child child 0 with
            | Some or_node =>
                match get_node_type or_node with
                | NODE_TYPE_OR => print_flag_names mode (ec_node_children or_node) true
                | _ => EmptyString
                end
            | None => EmptyString
            end ++
            closing
              match ec_node_get_child child 1 with
              | Some arg_node =>
                  if has_real_id (ec_node_id arg_node) then ec_node_id arg_node else None
              | None => None
              end
      | _ => opening ++ closing None
      end
  end.

(** [print_cli_options_from_tree], with the tree of [grcli_options_node ()] as
    its argument. *)
Definition print_cli_options_from_tree (options_tree : ec_node) : string :=
  "# SYNOPSIS" ++ LF ++ LF ++
  "**grcli**" ++ LF ++
  for_children (fun _ opt_node => print_option_syntax opt_node SYNOPSIS_MODE)
    (ec_node_children options_tree) 0 ++
  "..." ++ LF ++ LF ++
  "# OPTIONS" ++ LF ++ LF ++
  for_children (fun _ opt_node => print_option_syntax opt_node OPTION_MODE)
    (ec_node_children options_tree) 0.

(** *** man_commands.c, continued *)

(** The [recurse:] loop of [collect_arguments], over the function it calls on
    each child. *)
Definition collect_children
    (collect : ec_node -> arg_vec -> world -> Z * arg_vec * world)
    : list (option ec_node) -> arg_vec -> world -> Z * arg_vec * world :=
  fix loop (kids : list (option ec_node)) (args : arg_vec) (w : world) :=
    match kids with
    | [] => (0, args, w)
    | None :: rest => loop rest args w
    | Some child :: rest =>
        let '(rc, args1, w1) := collect child args w in
        if rc <? 0 then (- errno w1, args1, w1)
        else loop rest args1 w1
    end.

Fixpoint collect_arguments (node : ec_node) (args : arg_vec) (w : world)
    {struct node} : Z * arg_vec * world :=
  match node with
  | Node type id _ _ kids =>
      let recurse (args : arg_vec) (w : world) :=
        collect_children collect_arguments kids args w in
      match id with
      | None => recurse args w
      | Some id =>
          if String.eqb id EC_NO_ID then recurse args w
          else if negb (is_valid_type type argument_types) then recurse args w
          else if find_arg (vec_entries args) id then recurse args w
          else
            match realloc_push args (ArgEntry id node) w with
            | (None, w1) =>
                let '(rc, w2) := errno_set ENOMEM w1 in (rc, args, w2)
            | (Some new_args, w1) => recurse new_args w1
            end
      end
  end.

Fixpoint print_node_synopsis (node : ec_node) (depth : Z) {struct node} : string :=
  match node with
  | Node type id _ desc kids =>
      match get_node_type_of_name type with
      | NODE_TYPE_STR =>
          match desc with
          | Some d => " " ++ d
          | None => EmptyString
          end
      | NODE_TYPE_UINT | NODE_TYPE_INT =>
          " _" ++ match id with
                  | Some i => if negb (String.eqb i EC_NO_ID) then i else "NUM"
                  | None => "NUM"
                  end ++ "_"
      | NODE_TYPE_DYN | NODE_TYPE_RE =>
          " _" ++ match id with
                  | Some i => if negb (String.eqb i EC_NO_ID) then i else "ARG"
                  | None => "ARG"
                  end ++ "_"
      | NODE_TYPE_OR =>
          match kids with
          | [] => EmptyString
          | _ :: _ =>
              " (" ++
              for_children
                (fun i child =>
                   (if (0 <? i)%nat then " |" else EmptyString) ++
                   print_node_synopsis child (depth + 1))
                kids 0 ++
              " )"
          end
      | NODE_TYPE_SEQ | NODE_TYPE_CMD =>
          for_children (fun _ child => print_node_synopsis child (depth + 1)) kids 0
      | NODE_TYPE_OPTION | NODE_TYPE_MANY =>
          match kids with
          | [] => EmptyString
          | _ :: _ =>
              " [" ++
              for_children (fun _ child => print_node_synopsis child (depth + 1)) kids 0 ++
              " ]"
          end
      | NODE_TYPE_SUBSET =>
          for_children
            (fun _ child => " [" ++ print_node_synopsis child (depth + 1) ++ " ]")
            kids 0
      | NODE_TYPE_UNKNOWN => EmptyString
      end
  end.

(** The body of the SYNOPSIS loop of [print_command_details]: the usage line
    of one variant and, beneath it, the help of the variant. *)
Definition print_variant (ctx_name : string) (child_node : ec_node) : string :=
  let child_help :=
    match get_node_type child_node with
    | NODE_TYPE_SEQ =>
        if (2 <=? ec_node_get_children_count child_node)%nat then
          match ec_node_get_child child_node 0 with
          | Some str_node => ec_node_help str_node
          | None => None
          end
        else None
    | _ => ec_node_help child_node
    end in
  "**" ++ ctx_name ++ "** " ++ print_node_synopsis child_node 0 ++ LF ++
  match child_help with
  | Some h => "    " ++ h ++ LF
  | None => EmptyString
  end ++
  LF.

(** The collection loop of [print_command_details]; the flag in front says
    whether a call of [collect_arguments] returned a negative value. *)
Fixpoint collect_variants (kids : list (option ec_node)) (args : arg_vec) (w : world)
    : bool * arg_vec * world :=
  match kids with
  | [] => (false, args, w)
  | None :: rest => collect_variants rest args w
  | Some cmd_node :: rest =>
      let '(rc, args1, w1) := collect_arguments cmd_node args w in
      if rc <? 0 then (true, args1, w1)
      else collect_variants rest args1 w1
  end.

Definition print_command_details (ctx_name : string) (or_node : ec_node)
    (with_header : Z) (w : world) : Z * world :=
  let ctx_help := get_command_help or_node in
  let w :=
    if negb (with_header =? 0) then
      let w := printf ("# " ++ ctx_name ++ LF ++ LF) w in
      match ctx_help with
      | Some h => printf (h ++ LF ++ LF) w
      | None => w
      end
    else w in
  let w := printf ("# SYNOPSIS" ++ LF ++ LF) w in
  let w :=
    printf (for_children (fun _ child_node => print_variant ctx_name child_node)
              (ec_node_children or_node) 0) w in
  let w := printf ("# ARGUMENTS" ++ LF ++ LF) w in
  let '(failed, args, w) := collect_variants (ec_node_children or_node) None w in
  if failed then
    let w := fprintf_stderr ("Error: memory allocation failed" ++ LF) w in
    let w := free_args args w in
    (-1, w)
  else
    let flags := classify_arguments (vec_entries args) in
    let w := printf (print_arguments_help (vec_entries args)) w in
    let w := free_args args w in
    let w := printf (print_see_also ctx_name flags) w in
    (0, w).

(** [strchr] on a NULL id has no defined behaviour: the model raises [fault]
    and prints nothing more. *)
Definition print_standalone_command (name : string) (cmd_node : ec_node)
    (with_header : Z) (w : world) : world :=
  let help := ec_node_help cmd_node in
  let w :=
    if negb (with_header =? 0) then
      let w := printf ("# " ++ name ++ LF ++ LF) w in
      match help with
      | Some h => printf (h ++ LF ++ LF) w
      | None => w
      end
    else w in
  let w := printf ("# SYNOPSIS" ++ LF ++ LF) w in
  match ec_node_id cmd_node with
  | None => set_fault w
  | Some full_cmd =>
      let w :=
        match strchr full_cmd SPACE with
        | Some space =>
            printf ("**" ++ string_upto space full_cmd ++ "**" ++
                    string_from space full_cmd ++ LF ++ LF) w
        | None => printf ("**" ++ full_cmd ++ "**" ++ LF ++ LF) w
        end in
      let w := printf ("# SEE ALSO" ++ LF ++ LF) w in
      printf ("**grcli**(1)" ++ LF) w
  end.

(** [snprintf] into [title[128]] keeps at most 127 characters. *)
Definition print_man_page_header (cmd_name : string) (help_text : option string) : string :=
  let title :=
    string_upto 127
      ("GRCLI-" ++ cmd_name ++ " 1 " ++ DQUOTE ++ "grout " ++ GROUT_VERSION ++ DQUOTE) in
  title ++ LF ++
  man_print_title_underline title ++
  "# NAME" ++ LF ++ LF ++
  "**grcli-" ++ cmd_name ++ "** -- " ++
  match help_text with
  | Some h => h
  | None => EmptyString
  end ++ LF ++ LF.

Definition process_seq_node (node : ec_node) (requested_cmd : string) (found : bool)
    (w : world) : Z * bool * world :=
  if (ec_node_get_children_count node <? 2)%nat then (0, found, w)
  else
    match ec_node_get_child node 0 with
    | None => (0, found, w)
    | Some str_node =>
        match ec_node_get_child node 1 with
        | None => (0, found, w)
        | Some or_node =>
            match ec_node_id or_node with
            | None => (0, found, w)
            | Some name =>
                if String.eqb name EC_NO_ID then (0, found, w)
                else if negb (String.eqb name requested_cmd) then (0, found, w)
                else
                  let help_text := ec_node_help str_node in
                  let w := printf (print_man_page_header requested_cmd help_text) w in
                  let '(rc, w) := print_command_details name or_node 0 w in
                  if rc <? 0 then (-1, found, w)
                  else (0, true, w)
            end
        end
    end.

Definition process_cmd_node (node : ec_node) (requested_cmd : string) (found : bool)
    (w : world) : Z * bool * world :=
  match ec_node_id node with
  | None => (0, found, w)
  | Some full_id =>
      if String.eqb full_id EC_NO_ID then (0, found, w)
      else
        match strdup full_id w with
        | (None, w) =>
            (-1, found, fprintf_stderr ("Error: memory allocation failed" ++ LF) w)
        | (Some name_copy, w) =>
            let name_copy :=
              match strchr name_copy SPACE with
              | Some space => string_upto space name_copy
              | None => name_copy
              end in
            if negb (String.eqb name_copy requested_cmd) then (0, found, free_block w)
            else
              let help_text := ec_node_help node in
              let w := printf (print_man_page_header requested_cmd help_text) w in
              let w := print_standalone_command name_copy node 0 w in
              let w := free_block w in
              (0, true, w)
        end
  end.

(** The loop of [print_man_page] over the children of [cmdlist]: [Some r] in
    front when the function returned [r] from inside the loop. *)
Fixpoint print_man_page_loop (kids : list (option ec_node)) (requested_cmd : string)
    (found : bool) (w : world) : option Z * bool * world :=
  match kids with
  | [] => (None, found, w)
  | None :: rest => print_man_page_loop rest requested_cmd found w
  | Some node :: rest =>
      match get_node_type node with
      | NODE_TYPE_SEQ =>
          let '(rc, found, w) := process_seq_node node requested_cmd found w in
          if rc <? 0 then (Some EXIT_FAILURE, found, w)
          else if found then (None, found, w)
          else print_man_page_loop rest requested_cmd found w
      | NODE_TYPE_CMD =>
          let '(rc, found, w) := process_cmd_node node requested_cmd found w in
          if rc <? 0 then (Some EXIT_FAILURE, found, w)
          else if found then (None, found, w)
          else print_man_page_loop rest requested_cmd found w
      | _ => print_man_page_loop rest requested_cmd found w
      end
  end.

(** [requested_cmd] is [argv[2]]. *)
Definition print_man_page (cmdlist : ec_node) (requested_cmd : string) (w : world)
    : Z * world :=
  let '(returned, found, w) :=
    print_man_page_loop (ec_node_children cmdlist) requested_cmd false w in
  match returned with
  | Some r => (r, w)
  | None =>
      if negb found then
        (EXIT_FAILURE,
         fprintf_stderr ("Error: unknown command '" ++ requested_cmd ++ "'" ++ LF) w)
      else (EXIT_SUCCESS, w)
  end.

(** ** Vocabulary of the specification *)

(** The children of a node whose lookup succeeds, in order. *)
Fixpoint present_children (kids : list (option ec_node)) : list ec_node :=
  match kids with
  | [] => []
  | None :: rest => present_children rest
  | Some child :: rest => child :: present_children rest
  end.


(** The nodes of a subtree in pre-order, depth first. *)
Definition preorder_children (pre : ec_node -> list ec_node)
    : list (option ec_node) -> list ec_node :=
  fix loop (kids : list (option ec_node)) : list ec_node :=
    match kids with
    | [] => []
    | None :: rest => loop rest
    | Some child :: rest => (pre child ++ loop rest)%list
    end.

Fixpoint preorder (node : ec_node) : list ec_node :=
  match node with
  | Node _ _ _ _ kids => node :: preorder_children preorder kids
  end.

(** The strings of a list one after the other, nothing in between. *)
Definition concat_strings (l : list string) : string :=
  fold_right String.append EmptyString l.

(** The type of the node is one of UnsignedInt, Int, DynamicValue, Regex. *)
Definition is_argument_type (t : ec_node_type_enum) : bool :=
  match t with
  | NODE_TYPE_UINT | NODE_TYPE_INT | NODE_TYPE_DYN | NODE_TYPE_RE => true
  | _ => false
  end.

(** A node qualifies as a collectible argument, the entries collected so far
    apart: it has a real id and an argument type. *)
Definition qualifies (node : ec_node) : bool :=
  (has_real_id (ec_node_id node) && is_argument_type (get_node_type node))%bool.

(** What visiting one node does to the entries collected so far: the node is
    appended iff it qualifies and no entry has its id yet. *)
Definition visit (acc : list arg_entry) (node : ec_node) : list arg_entry :=
  match ec_node_id node with
  | Some i =>
      if (qualifies node && negb (find_arg acc i))%bool
      then (acc ++ [ArgEntry i node])%list
      else acc
  | None => acc
  end.

(** The entries after a pre-order walk of the subtree. *)
Definition collected (node : ec_node) (acc : list arg_entry) : list arg_entry :=
  fold_left visit (preorder node) acc.

(** The entries after a pre-order walk of every variant, in order. *)
Definition collected_variants (kids : list (option ec_node)) (acc : list arg_entry)
    : list arg_entry :=
  fold_left visit (preorder_children preorder kids) acc.

(** The number of entries a walk over [nodes] adds to [acc]: as many calls of
    [realloc] as the collector makes when none fails. *)
Definition allocations_needed (nodes : list ec_node) (acc : list arg_entry) : nat :=
  (List.length (fold_left visit nodes acc) - List.length acc)%nat.

(** The heap blocks behind an entry vector. *)
Definition blocks (args : arg_vec) : nat :=
  match args with
  | None => 0%nat
  | Some _ => 1%nat
  end.

(** The first [n] answers of the allocator are all positive. *)
Fixpoint grants (n : nat) (answers : list bool) : bool :=
  match n, answers with
  | O, _ => true
  | S _, [] => true
  | S k, b :: rest => (b && grants k rest)%bool
  end.

(** What a run of the collector over the nodes [nodes], in this order, leaves
    behind: the streams untouched, the heap balance kept, and either all the
    entries of the walk, or the allocation-failure code as soon as one of the
    answers it needs is negative. *)
Definition collect_post (nodes : list ec_node) (args : arg_vec) (w : world)
    (r : Z * arg_vec * world) : Prop :=
  let '(rc, args', w') := r in
  let needed := allocations_needed nodes (vec_entries args) in
  out w' = out w /\ err w' = err w /\ fault w' = fault w /\
  (live w' + blocks args = live w + blocks args')%nat /\
  if grants needed (oracle w)
  then rc = 0 /\
       vec_entries args' = fold_left visit nodes (vec_entries args) /\
       oracle w' = skipn needed (oracle w)
  else rc = - ENOMEM /\ errno w' = ENOMEM.

(** The allocator never refuses. *)
Definition never_fails (w : world) : Prop :=
  Forall (fun b => b = true) (oracle w).

(** The id up to, and without, its first space. *)
Fixpoint upto_first_space (s : string) : string :=
  match s with
  | EmptyString => EmptyString
  | String c rest =>
      if Ascii.eqb c SPACE then EmptyString else String c (upto_first_space rest)
  end.

(** The id from its first space on; empty when it has none. *)
Fixpoint from_first_space (s : string) : string :=
  match s with
  | EmptyString => EmptyString
  | String c rest =>
      if Ascii.eqb c SPACE then s else from_first_space rest
  end.

(** [sub] occurs in [s]. *)
Definition occurs (sub s : string) : bool :=
  match index 0 sub s with
  | Some _ => true
  | None => false
  end.

(** The sequence shape as the resolver tests it. *)
Definition seq_shape_matches (requested_cmd : string) (node : ec_node) : bool :=
  ((2 <=? ec_node_get_children_count node)%nat &&
   match ec_node_get_child node 0, ec_node_get_child node 1 with
   | Some _, Some or_node =>
       match ec_node_id or_node with
       | Some name => negb (String.eqb name EC_NO_ID) && String.eqb name requested_cmd
       | None => false
       end
   | _, _ => false
   end)%bool.

(** The command shape as the resolver tests it. *)
Definition cmd_shape_matches (requested_cmd : string) (node : ec_node) : bool :=
  match ec_node_id node with
  | Some full_id =>
      (negb (String.eqb full_id EC_NO_ID) &&
       String.eqb (upto_first_space full_id) requested_cmd)%bool
  | None => false
  end.

(** A top-level child the resolver accepts for the requested name. *)
Definition child_matches (requested_cmd : string) (node : ec_node) : bool :=
  match get_node_type node with
  | NODE_TYPE_SEQ => seq_shape_matches requested_cmd node
  | NODE_TYPE_CMD => cmd_shape_matches requested_cmd node
  | _ => false
  end.

(** The sequence shape in the words of the specification: at least two
    children, child 0 a Literal, child 1 an Alternation whose id is the
    requested name. *)
Definition documented_seq_shape (requested_cmd : string) (node : ec_node) : Prop :=
  (2 <= ec_node_get_children_count node)%nat /\
  exists str_node or_node,
    ec_node_get_child node 0 = Some str_node /\
    ec_node_get_child node 1 = Some or_node /\
    get_node_type str_node = NODE_TYPE_STR /\
    get_node_type or_node = NODE_TYPE_OR /\
    ec_node_id or_node = Some requested_cmd.

(** The SYNOPSIS section of a command-shape page in the words of the
    specification: one line with the command name and nothing else. *)
Definition documented_standalone_synopsis (name : string) : string :=
  "# SYNOPSIS" ++ LF ++ LF ++ "**" ++ name ++ "**" ++ LF ++ LF.

(** What [print_command_details] writes to stdout before it collects the
    arguments: the optional header, the SYNOPSIS section and the heading of
    the ARGUMENTS section. *)
Definition details_prologue (ctx_name : string) (or_node : ec_node) (with_header : Z)
    : string :=
  (if negb (with_header =? 0) then
     "# " ++ ctx_name ++ LF ++ LF ++
     match get_command_help or_node with
     | Some h => h ++ LF ++ LF
     | None => EmptyString
     end
   else EmptyString) ++
  "# SYNOPSIS" ++ LF ++ LF ++
  for_children (fun _ child_node => print_variant ctx_name child_node)
    (ec_node_children or_node) 0 ++
  "# ARGUMENTS" ++ LF ++ LF.

(** The text [print_command_details] writes to stdout when no allocation
    fails: after the prologue, the help of every collected argument in
    collection order and the SEE ALSO section. *)
Definition command_details_text (ctx_name : string) (or_node : ec_node) (with_header : Z)
    : string :=
  let entries := collected_variants (ec_node_children or_node) [] in
  details_prologue ctx_name or_node with_header ++
  print_arguments_help entries ++
  print_see_also ctx_name (classify_arguments entries).

(** Case analysis on every string comparison of the goal. *)
Ltac string_cases :=
  repeat match goal with
         | |- context [String.eqb ?a ?b] =>
             destruct (String.eqb_spec a b);
             [ subst; simpl | simpl ]
         end.

(** ** The page of the shell itself (man_main.c) *)

(** The default path of the control socket ([GR_DEFAULT_SOCK_PATH] of the API
    headers, outside src/cli). *)
Variable GR_DEFAULT_SOCK_PATH : string.

Definition ENV_DPRC_DESCRIPTION : string :=
  "Set the DPRC - Datapath Resource Container: This value should match the one used " ++
  "by DPDK during the scan of the fslmc bus. It is recommended to set this on any NXP " ++
  "QorIQ targets. This serves as the entry point for grcli to enable autocompletion of " ++
  "fslmc devices manageable by grout. While grcli can configure grout without this " ++
  "environment setting, autocompletion of the devargs will not be available.".

Definition REPORTING_BUGS : string :=
  "Report bugs to the grout project issue tracker at " ++
  "<https://github.com/DPDK/grout/issues>.".

(** [print_main_man_page], with the tree of [grcli_options_node ()] as its
    argument: the text written to stdout; the function returns 0. *)
Definition print_main_man_page (options_tree : ec_node) : Z * string :=
  let title := string_upto 127 ("GRCLI 1 " ++ DQUOTE ++ "grout " ++ GROUT_VERSION ++ DQUOTE) in
  (0,
   title ++ LF ++
   man_print_title_underline title ++
   "# NAME" ++ LF ++ LF ++
   "**grcli** -- grout command line interface" ++ LF ++ LF ++
   print_cli_options_from_tree options_tree ++
   "# ENVIRONMENT" ++ LF ++ LF ++
   "#### **DPRC**" ++ LF ++ LF ++
   ENV_DPRC_DESCRIPTION ++ LF ++ LF ++
   "#### **GROUT_SOCK_PATH**" ++ LF ++ LF ++
   "Path to the control plane API socket. If not set, defaults to _" ++
   GR_DEFAULT_SOCK_PATH ++ "_." ++ LF ++ LF ++
   "# SEE ALSO" ++ LF ++ LF ++
   "**grout**(8)" ++ LF ++ LF ++
   "# REPORTING BUGS" ++ LF ++ LF ++
   REPORTING_BUGS ++ LF).

(** ** Further vocabulary *)

(** The name ecoli gives to the nodes of a type the renderer knows. *)
Definition node_type_name (t : ec_node_type_enum) : option string :=
  match t with
  | NODE_TYPE_STR => Some "str"
  | NODE_TYPE_UINT => Some "uint"
  | NODE_TYPE_INT => Some "int"
  | NODE_TYPE_DYN => Some "dyn"
  | NODE_TYPE_RE => Some "re"
  | NODE_TYPE_OR => Some "or"
  | NODE_TYPE_SEQ => Some "seq"
  | NODE_TYPE_CMD => Some "cmd"
  | NODE_TYPE_OPTION => Some "option"
  | NODE_TYPE_MANY => Some "many"
  | NODE_TYPE_SUBSET => Some "subset"
  | NODE_TYPE_UNKNOWN => None
  end.

(** The number of occurrences of a character in a string. *)
Fixpoint count_char (c : ascii) (s : string) : nat :=
  match s with
  | EmptyString => 0%nat
  | String a rest => ((if Ascii.eqb a c then 1 else 0) + count_char c rest)%nat
  end.

(** A text without parentheses and square brackets. *)
Definition bracket_free (s : string) : Prop :=
  count_char "("%char s = 0%nat /\ count_char ")"%char s = 0%nat /\
  count_char "["%char s = 0%nat /\ count_char "]"%char s = 0%nat.

(** The ids and descriptions of a subtree are free of brackets. *)
Definition plain_labels (node : ec_node) : Prop :=
  forall n, In n (preorder node) ->
    (forall d, ec_node_desc n = Some d -> bracket_free d) /\
    (forall i, ec_node_id n = Some i -> bracket_free i).

(** The capital of each lower-case letter of ASCII. *)
Definition letter_table : list (ascii * ascii) :=
  combine (list_ascii_of_string "abcdefghijklmnopqrstuvwxyz")
          (list_ascii_of_string "ABCDEFGHIJKLMNOPQRSTUVWXYZ").

(** The capital of a lower-case letter, any other character as it is. *)
Definition capital (c : ascii) : ascii :=
  match find (fun p : ascii * ascii => Ascii.eqb (fst p) c) letter_table with
  | Some p => snd p
  | None => c
  end.

(** A text with every lower-case letter replaced by its capital. *)
Fixpoint capitals (s : string) : string :=
  match s with
  | EmptyString => EmptyString
  | String c rest => String (capital c) (capitals rest)
  end.

(** The ARGUMENTS entry of a collected argument: the heading with the id it
    was filed under, then the help of its node or, without one, the
    sentence of its type. *)
Definition documented_argument (e : arg_entry) : string :=
  "#### _" ++ arg_id e ++ "_" ++ LF ++ LF ++
  match ec_node_help (arg_node e) with
  | Some help => help ++ LF ++ LF
  | None =>
      match get_node_type (arg_node e) with
      | NODE_TYPE_UINT => "Unsigned integer." ++ LF ++ LF
      | NODE_TYPE_INT => "Integer." ++ LF ++ LF
      | NODE_TYPE_DYN => "Dynamic value." ++ LF ++ LF
      | _ => EmptyString
      end
  end.



(** The top-level child is one of the two kinds the resolver looks at. *)
Definition resolver_looks_at (k : option ec_node) : bool :=
  match k with
  | None => false
  | Some node =>
      match get_node_type node with
      | NODE_TYPE_SEQ | NODE_TYPE_CMD => true
      | _ => false
      end
  end.

(** As many opening as closing brackets, of either kind. *)
Definition balanced (s : string) : Prop :=
  count_char "("%char s = count_char ")"%char s /\
  count_char "["%char s = count_char "]"%char s.

(** ** Strings and worlds *)

Lemma string_app_assoc : forall a b c : string, (a ++ b) ++ c = a ++ (b ++ c).
Proof.
  induction a as [|x a IH]; intros b c; simpl; [reflexivity|].
  now rewrite IH.
Qed.

Lemma string_app_nil_r : forall a : string, a ++ EmptyString = a.
Proof.
  induction a as [|x a IH]; simpl; [reflexivity|]. now rewrite IH.
Qed.

Lemma out_printf : forall s w, out (printf s w) = out w ++ s.
Proof. reflexivity. Qed.

(** ** The synopsis renderer *)

Lemma for_children_concat :
  forall (f : ec_node -> string) kids i,
    for_children (fun _ child => f child) kids i
    = concat_strings (map f (present_children kids)).
Proof.
  intros f kids. induction kids as [|k rest IH]; intro i; simpl; [reflexivity|].
  destruct k as [child|]; simpl; now rewrite IH.
Qed.





(** C6: the synopsis of a Sequence or Command node is the concatenation, in
    order and with nothing in between, of the synopses of its children, at
    every depth. *)
Theorem sequence_synopsis_is_concatenation :
  forall node depth,
    get_node_type node = NODE_TYPE_SEQ \/ get_node_type node = NODE_TYPE_CMD ->
    print_node_synopsis node depth
    = concat_strings
        (map (fun child => print_node_synopsis child (depth + 1))
             (present_children (ec_node_children node))).
Proof.
  intros node depth Htype. destruct node as [type id help desc kids].
  unfold get_node_type in Htype. simpl in Htype. simpl.
  destruct Htype as [Htype|Htype]; rewrite Htype; apply for_children_concat.
Qed.

(** C10: when the first child of an option node is a Sequence with fewer than
    two children, the option printer emits the opening delimiter of its mode
    and nothing else: no closing bracket, no newline, no help text.  The
    bracket opened in synopsis mode is never closed. *)
Theorem print_option_syntax_short_sequence :
  forall cmd_node child mode,
    ec_node_get_child cmd_node 0 = Some child ->
    get_node_type child = NODE_TYPE_SEQ ->
    (ec_node_get_children_count child < 2)%nat ->
    print_option_syntax cmd_node mode
    = match mode with
      | SYNOPSIS_MODE => "["
      | OPTION_MODE => "#### "
      end
    /\ occurs "]" (print_option_syntax cmd_node SYNOPSIS_MODE) = false.
Proof.
  intros cmd_node child mode Hchild Htype Hcount.
  assert (H : forall m, print_option_syntax cmd_node m
                        = match m with
                          | SYNOPSIS_MODE => "["
                          | OPTION_MODE => "#### "
                          end).
  { intro m. unfold print_option_syntax. rewrite Hchild, Htype.
    apply Nat.ltb_lt in Hcount. rewrite Hcount. now destruct m. }
  split; [apply H|]. now rewrite H.
Qed.

(** ** The cross-reference classifier *)

Lemma classify_argument_flags :
  forall f e,
    let i := arg_id e in
    has_iface (classify_argument f e)
    = (has_iface f || (String.eqb i "IFACE" || String.eqb i "NAME"))%bool /\
    has_vrf (classify_argument f e)
    = (has_vrf f || String.eqb i "VRF")%bool /\
    has_nexthop (classify_argument f e)
    = (has_nexthop f
       || (String.eqb i "NH" || String.eqb i "NH_ID" || String.eqb i "SEGLIST"))%bool /\
    has_address (classify_argument f e)
    = (has_address f
       || (String.eqb i "ADDR" || String.eqb i "IP" || String.eqb i "DEST"))%bool.
Proof.
  intros f e i. unfold classify_argument. fold i. clearbody i.
  destruct f as [a b c d]. simpl.
  string_cases; repeat split; simpl;
    rewrite ?orb_true_r, ?orb_false_r; reflexivity.
Qed.

Lemma classify_fold_flags :
  forall args f,
    let g := fold_left classify_argument args f in
    has_iface g
    = (has_iface f
       || existsb (fun e => String.eqb (arg_id e) "IFACE"
                            || String.eqb (arg_id e) "NAME") args)%bool /\
    has_vrf g
    = (has_vrf f || existsb (fun e => String.eqb (arg_id e) "VRF") args)%bool /\
    has_nexthop g
    = (has_nexthop f
       || existsb (fun e => String.eqb (arg_id e) "NH" || String.eqb (arg_id e) "NH_ID"
                            || String.eqb (arg_id e) "SEGLIST") args)%bool /\
    has_address g
    = (has_address f
       || existsb (fun e => String.eqb (arg_id e) "ADDR" || String.eqb (arg_id e) "IP"
                            || String.eqb (arg_id e) "DEST") args)%bool.
Proof.
  induction args as [|e rest IH]; intro f; simpl.
  - now rewrite !orb_false_r.
  - destruct (IH (classify_argument f e)) as (H1 & H2 & H3 & H4).
    destruct (classify_argument_flags f e) as (K1 & K2 & K3 & K4).
    simpl in *. rewrite H1, H2, H3, H4, K1, K2, K3, K4.
    now rewrite !orb_assoc.
Qed.

Lemma see_also_references :
  forall ctx_name f,
    (occurs "**grcli-interface**(1)" (print_see_also ctx_name f) = true
     <-> has_iface f = true /\ ctx_name <> "interface") /\
    (occurs "**grcli-address**(1)" (print_see_also ctx_name f) = true
     <-> has_address f = true /\ ctx_name <> "address") /\
    (occurs "**grcli-nexthop**(1)" (print_see_also ctx_name f) = true
     <-> has_nexthop f = true /\ ctx_name <> "nexthop") /\
    (occurs "**grcli-route**(1)" (print_see_also ctx_name f) = true
     <-> has_vrf f = true /\ ctx_name <> "route").
Proof.
  intros ctx_name [a b c d]. unfold print_see_also. simpl has_iface.
  simpl has_vrf. simpl has_nexthop. simpl has_address.
  destruct (String.eqb_spec ctx_name "interface") as [E1|E1];
  destruct (String.eqb_spec ctx_name "address") as [E2|E2];
  destruct (String.eqb_spec ctx_name "nexthop") as [E3|E3];
  destruct (String.eqb_spec ctx_name "route") as [E4|E4];
  destruct a, b, c, d;
  repeat match goal with
         | |- context [occurs ?x ?y] =>
             let v := eval vm_compute in (occurs x y) in
             change (occurs x y) with v
         end;
  repeat match goal with |- _ /\ _ => split end;
  (split;
   [ intro H; first [discriminate H | split; [reflexivity | assumption]]
   | intros [Ha Hc]; first [reflexivity | discriminate Ha | contradiction] ]).
Qed.


(** ** The command shape *)

Lemma string_upto_strchr :
  forall s k, strchr s SPACE = Some k -> string_upto k s = upto_first_space s.
Proof.
  unfold string_upto.
  induction s as [|c rest IH]; intros k H; simpl in *; [discriminate|].
  destruct (Ascii.eqb c SPACE).
  - injection H as <-. reflexivity.
  - destruct (strchr rest SPACE) as [j|] eqn:E; [|discriminate].
    injection H as <-. simpl. now rewrite (IH j).
Qed.

Lemma upto_first_space_no_space :
  forall s, strchr s SPACE = None -> upto_first_space s = s.
Proof.
  induction s as [|c rest IH]; intro H; simpl in *; [reflexivity|].
  destruct (Ascii.eqb c SPACE); [discriminate|].
  destruct (strchr rest SPACE); [discriminate|]. now rewrite IH.
Qed.

Lemma substring_whole : forall s, substring 0 (String.length s) s = s.
Proof.
  induction s as [|c rest IH]; simpl; [reflexivity|]. now rewrite IH.
Qed.

Lemma string_from_strchr :
  forall s k, strchr s SPACE = Some k -> string_from k s = from_first_space s.
Proof.
  unfold string_from.
  induction s as [|c rest IH]; intros k H; simpl in *; [discriminate|].
  destruct (Ascii.eqb c SPACE).
  - injection H as <-. simpl. now rewrite substring_whole.
  - destruct (strchr rest SPACE) as [j|] eqn:E; [|discriminate].
    injection H as <-. simpl. now apply IH.
Qed.

Lemma from_first_space_no_space :
  forall s, strchr s SPACE = None -> from_first_space s = EmptyString.
Proof.
  induction s as [|c rest IH]; intro H; simpl in *; [reflexivity|].
  destruct (Ascii.eqb c SPACE); [discriminate|].
  destruct (strchr rest SPACE); [discriminate|]. now apply IH.
Qed.

(** What [process_cmd_node] compares with the requested name. *)
Lemma truncated_copy :
  forall full_id,
    match strchr full_id SPACE with
    | Some space => string_upto space full_id
    | None => full_id
    end = upto_first_space full_id.
Proof.
  intro full_id. destruct (strchr full_id SPACE) as [k|] eqn:E.
  - now apply string_upto_strchr.
  - symmetry. now apply upto_first_space_no_space.
Qed.

(** C2: a Command node with a real id is accepted for a requested name iff
    the name is the id cut before its first space ([strdup] succeeding). *)
Theorem command_shape_match :
  forall node full_id requested_cmd w,
    ec_node_id node = Some full_id ->
    full_id <> EC_NO_ID ->
    fst (alloc_request w) = true ->
    (snd (fst (process_cmd_node node requested_cmd false w)) = true
     <-> requested_cmd = upto_first_space full_id).
Proof.
  intros node full_id requested_cmd w Hid Hreal Halloc.
  unfold process_cmd_node. rewrite Hid.
  apply String.eqb_neq in Hreal. rewrite Hreal.
  unfold strdup. destruct (alloc_request w) as [ok w1]. simpl in Halloc. subst ok.
  rewrite truncated_copy.
  destruct (String.eqb_spec (upto_first_space full_id) requested_cmd) as [E|E]; simpl.
  - split; [intros _; now symmetry | reflexivity].
  - split; [discriminate | intro H; now symmetry in H].
Qed.

Lemma print_standalone_command_out :
  forall name cmd_node full_id w,
    ec_node_id cmd_node = Some full_id ->
    out (print_standalone_command name cmd_node 0 w)
    = out w ++
      ("# SYNOPSIS" ++ LF ++ LF ++
       "**" ++ upto_first_space full_id ++ "**" ++ from_first_space full_id ++ LF ++ LF) ++
      "# SEE ALSO" ++ LF ++ LF ++ "**grcli**(1)" ++ LF.
Proof.
  intros name cmd_node full_id w Hid.
  unfold print_standalone_command. rewrite Hid. simpl negb. cbv iota.
  destruct (strchr full_id SPACE) as [k|] eqn:E.
  - rewrite (string_upto_strchr _ _ E), (string_from_strchr _ _ E).
    rewrite !out_printf. now rewrite !string_app_assoc.
  - rewrite (upto_first_space_no_space _ E), (from_first_space_no_space _ E).
    rewrite !out_printf. now rewrite !string_app_assoc.
Qed.

Lemma out_alloc_request : forall w, out (snd (alloc_request w)) = out w.
Proof. intro w. unfold alloc_request. now destruct (oracle w). Qed.

(** C4, as the code has it: the SYNOPSIS section of a command-shape page is
    one line, the requested name in bold followed by the rest of the id of the
    node from its first space on; the line is the bare command name only when
    the id has no space. *)
Theorem command_page_synopsis :
  forall node full_id requested_cmd w,
    ec_node_id node = Some full_id ->
    full_id <> EC_NO_ID ->
    fst (alloc_request w) = true ->
    requested_cmd = upto_first_space full_id ->
    out (snd (process_cmd_node node requested_cmd false w))
    = out w ++
      print_man_page_header requested_cmd (ec_node_help node) ++
      ("# SYNOPSIS" ++ LF ++ LF ++
       "**" ++ requested_cmd ++ "**" ++ from_first_space full_id ++ LF ++ LF) ++
      "# SEE ALSO" ++ LF ++ LF ++ "**grcli**(1)" ++ LF
    /\ (strchr full_id SPACE = None ->
        out (snd (process_cmd_node node requested_cmd false w))
        = out w ++
          print_man_page_header requested_cmd (ec_node_help node) ++
          documented_standalone_synopsis requested_cmd ++
          "# SEE ALSO" ++ LF ++ LF ++ "**grcli**(1)" ++ LF).
Proof.
  intros node full_id requested_cmd w Hid Hreal Halloc Hreq.
  assert (Hout : out (snd (process_cmd_node node requested_cmd false w))
    = out w ++
      print_man_page_header requested_cmd (ec_node_help node) ++
      ("# SYNOPSIS" ++ LF ++ LF ++
       "**" ++ requested_cmd ++ "**" ++ from_first_space full_id ++ LF ++ LF) ++
      "# SEE ALSO" ++ LF ++ LF ++ "**grcli**(1)" ++ LF).
  { unfold process_cmd_node. rewrite Hid.
    apply String.eqb_neq in Hreal. rewrite Hreal.
    unfold strdup. pose proof (out_alloc_request w) as Hw.
    destruct (alloc_request w) as [ok w1]. simpl in Halloc, Hw. subst ok.
    rewrite truncated_copy, <- Hreq, String.eqb_refl. cbn [negb snd].
    unfold free_block, set_live at 1. cbn [out].
    rewrite (print_standalone_command_out _ _ _ _ Hid), out_printf.
    unfold set_live. cbn [out].
    rewrite Hw, <- Hreq. now rewrite !string_app_assoc. }
  split; [exact Hout|].
  intro Hnone. rewrite Hout, (from_first_space_no_space _ Hnone).
  unfold documented_standalone_synopsis. reflexivity.
Qed.

(** ** The argument collector *)

Lemma is_valid_type_argument_types :
  forall type,
    is_valid_type type argument_types = is_argument_type (get_node_type_of_name type).
Proof.
  intro type. unfold argument_types, is_valid_type, get_node_type_of_name.
  string_cases; reflexivity.
Qed.

Lemma visit_length : forall node acc,
  (List.length acc <= List.length (visit acc node))%nat.
Proof.
  intros node acc. unfold visit. destruct (ec_node_id node) as [i|]; [|lia].
  destruct (qualifies node && negb (find_arg acc i))%bool; [|lia].
  rewrite length_app. simpl. lia.
Qed.

Lemma fold_visit_length : forall nodes acc,
  (List.length acc <= List.length (fold_left visit nodes acc))%nat.
Proof.
  induction nodes as [|n rest IH]; intro acc; simpl; [lia|].
  specialize (IH (visit acc n)). pose proof (visit_length n acc). lia.
Qed.

Lemma allocations_needed_app : forall l1 l2 acc,
  allocations_needed (l1 ++ l2) acc
  = (allocations_needed l1 acc + allocations_needed l2 (fold_left visit l1 acc))%nat.
Proof.
  intros l1 l2 acc. unfold allocations_needed. rewrite fold_left_app.
  pose proof (fold_visit_length l1 acc).
  pose proof (fold_visit_length l2 (fold_left visit l1 acc)). lia.
Qed.

Lemma grants_nil : forall n, grants n [] = true.
Proof. now destruct n. Qed.

Lemma grants_add : forall n m answers,
  grants (n + m) answers = (grants n answers && grants m (skipn n answers))%bool.
Proof.
  induction n as [|n IH]; intros m answers; simpl; [reflexivity|].
  destruct answers as [|b rest]; simpl.
  - now rewrite grants_nil.
  - rewrite IH. now rewrite andb_assoc.
Qed.

Lemma never_fails_grants : forall w n, never_fails w -> grants n (oracle w) = true.
Proof.
  unfold never_fails. intros w n H. revert n.
  induction H as [|b rest Hb _ IH]; intro n; [apply grants_nil|].
  destruct n; simpl; [reflexivity|]. now rewrite Hb, IH.
Qed.

Lemma collect_post_failed :
  forall l1 l2 args w r,
    collect_post l1 args w r ->
    grants (allocations_needed l1 (vec_entries args)) (oracle w) = false ->
    collect_post (l1 ++ l2) args w r.
Proof.
  intros l1 l2 args w [[rc a1] w1] H Hg. unfold collect_post in *.
  destruct H as (Ho & He & Hf & Hl & H). rewrite Hg in H.
  rewrite allocations_needed_app, grants_add, Hg. simpl. auto.
Qed.

Lemma collect_post_granted :
  forall l1 l2 args w rc a1 w1 r,
    collect_post l1 args w (rc, a1, w1) ->
    grants (allocations_needed l1 (vec_entries args)) (oracle w) = true ->
    collect_post l2 a1 w1 r ->
    collect_post (l1 ++ l2) args w r.
Proof.
  intros l1 l2 args w rc a1 w1 [[rc2 a2] w2] H1 Hg H2. unfold collect_post in *.
  destruct H1 as (Ho & He & Hf & Hl & H1). rewrite Hg in H1.
  destruct H1 as (_ & Hent & Hor).
  destruct H2 as (Ho2 & He2 & Hf2 & Hl2 & H2).
  rewrite allocations_needed_app, grants_add, Hg. simpl.
  rewrite Hent, Hor in H2.
  repeat split; try congruence; try lia.
  destruct (grants (allocations_needed l2 (fold_left visit l1 (vec_entries args)))
              (skipn (allocations_needed l1 (vec_entries args)) (oracle w))).
  - destruct H2 as (-> & -> & ->). rewrite fold_left_app, skipn_skipn.
    repeat split. f_equal. lia.
  - exact H2.
Qed.

Lemma collect_post_negative :
  forall nodes args w rc a1 w1,
    collect_post nodes args w (rc, a1, w1) ->
    (rc <? 0) = negb (grants (allocations_needed nodes (vec_entries args)) (oracle w))
    /\ ((rc <? 0) = true -> - errno w1 = rc).
Proof.
  intros nodes args w rc a1 w1 (_ & _ & _ & _ & H).
  destruct (grants _ _).
  - destruct H as (-> & _). split; [reflexivity | discriminate].
  - destruct H as (-> & ->). split; [reflexivity | reflexivity].
Qed.

Lemma collect_children_post :
  forall kids,
    children_all
      (fun node => forall args w,
           collect_post (preorder node) args w (collect_arguments node args w)) kids ->
    forall args w,
      collect_post (preorder_children preorder kids) args w
        (collect_children collect_arguments kids args w).
Proof.
  induction 1 as [|k rest Hk _ IH]; intros args w; simpl.
  - unfold collect_post, allocations_needed. simpl.
    rewrite Nat.sub_diag. simpl. repeat split; lia.
  - destruct k as [child|]; [|apply IH].
    specialize (Hk args w).
    destruct (collect_arguments child args w) as [[rc a1] w1].
    destruct (collect_post_negative _ _ _ _ _ _ Hk) as [Hneg Herrno].
    destruct (rc <? 0) eqn:E.
    + rewrite (Herrno eq_refl). apply collect_post_failed; [exact Hk|].
      now destruct (grants _ _).
    + eapply collect_post_granted; [exact Hk | | apply IH].
      now destruct (grants _ _).
Qed.

Lemma visit_skip :
  forall type id help desc kids acc i,
    id = Some i ->
    (String.eqb i EC_NO_ID = true
     \/ is_valid_type type argument_types = false
     \/ find_arg acc i = true) ->
    visit acc (Node type id help desc kids) = acc.
Proof.
  intros type id help desc kids acc i -> H. unfold visit, qualifies, get_node_type.
  simpl. rewrite <- is_valid_type_argument_types.
  destruct H as [H|[H|H]]; rewrite H; simpl;
    rewrite ?andb_false_r; reflexivity.
Qed.

Lemma collect_post_skip :
  forall node args w,
    visit (vec_entries args) node = vec_entries args ->
    collect_post [node] args w (0, args, w)
    /\ grants (allocations_needed [node] (vec_entries args)) (oracle w) = true.
Proof.
  intros node args w H. unfold collect_post, allocations_needed. simpl.
  rewrite H, Nat.sub_diag. simpl. repeat split; lia.
Qed.

Lemma collect_arguments_eq :
  forall type id help desc kids args w,
    collect_arguments (Node type id help desc kids) args w
    = match id with
      | None => collect_children collect_arguments kids args w
      | Some i =>
          if String.eqb i EC_NO_ID then collect_children collect_arguments kids args w
          else if negb (is_valid_type type argument_types)
          then collect_children collect_arguments kids args w
          else if find_arg (vec_entries args) i
          then collect_children collect_arguments kids args w
          else
            match realloc_push args (ArgEntry i (Node type id help desc kids)) w with
            | (None, w1) => (- ENOMEM, args, set_errno ENOMEM w1)
            | (Some new_args, w1) => collect_children collect_arguments kids new_args w1
            end
      end.
Proof. intros. destruct id; reflexivity. Qed.

Lemma collect_arguments_post :
  forall node args w,
    collect_post (preorder node) args w (collect_arguments node args w).
Proof.
  induction node as [type id help desc kids IH] using ec_node_tree_ind.
  intros args w. pose proof (collect_children_post kids IH) as Hkids.
  change (preorder (Node type id help desc kids))
    with ([Node type id help desc kids] ++ preorder_children preorder kids)%list.
  assert (Hskip : visit (vec_entries args) (Node type id help desc kids) = vec_entries args ->
                  collect_post
                    ([Node type id help desc kids] ++ preorder_children preorder kids)
                    args w (collect_children collect_arguments kids args w)).
  { intro Hv. destruct (collect_post_skip _ args w Hv) as [H1 H2].
    eapply collect_post_granted; [exact H1 | exact H2 | apply Hkids]. }
  rewrite collect_arguments_eq.
  destruct id as [i|]; [|apply Hskip; reflexivity].
  destruct (String.eqb i EC_NO_ID) eqn:Eid;
    [apply Hskip; eapply visit_skip; eauto|].
  destruct (is_valid_type type argument_types) eqn:Etype; simpl negb; cbv iota;
    [|apply Hskip; eapply visit_skip; eauto].
  destruct (find_arg (vec_entries args) i) eqn:Efind;
    [apply Hskip; eapply visit_skip; eauto|].
  assert (Hv : visit (vec_entries args) (Node type (Some i) help desc kids)
               = (vec_entries args ++ [ArgEntry i (Node type (Some i) help desc kids)])%list).
  { unfold visit, qualifies, get_node_type. simpl.
    now rewrite <- is_valid_type_argument_types, Eid, Etype, Efind. }
  assert (Hneed : allocations_needed [Node type (Some i) help desc kids] (vec_entries args)
                  = 1%nat).
  { unfold allocations_needed. simpl. rewrite Hv, length_app. simpl. lia. }
  unfold realloc_push, alloc_request.
  destruct (oracle w) as [|b rest] eqn:Eor; [|destruct b].
  - eapply collect_post_granted; [| |apply Hkids].
    + unfold collect_post. rewrite Hneed, Eor.
      destruct args as [l|]; simpl in *; rewrite ?Hv, ?Eor;
        repeat split; try reflexivity; try lia; auto.
    + now rewrite Hneed, Eor.
  - eapply collect_post_granted; [| |apply Hkids].
    + unfold collect_post. rewrite Hneed, Eor.
      destruct args as [l|]; simpl in *; rewrite ?Hv, ?Eor;
        repeat split; try reflexivity; try lia; auto.
    + now rewrite Hneed, Eor.
  - apply collect_post_failed.
    + unfold collect_post. rewrite Hneed, Eor. simpl. repeat split; lia.
    + now rewrite Hneed, Eor.
Qed.

#[local] Arguments collect_post : simpl never.

Lemma find_arg_false :
  forall acc i, find_arg acc i = false <-> ~ In i (map arg_id acc).
Proof.
  induction acc as [|e rest IH]; intro i; simpl.
  - split; [intros _ []|reflexivity].
  - destruct (String.eqb_spec (arg_id e) i) as [E|E].
    + split; [discriminate | intro H; exfalso; apply H; now left].
    + rewrite IH. split.
      * intros H [K|K]; [contradiction | now apply H].
      * intros H K. apply H. now right.
Qed.

Lemma visit_nodup :
  forall node acc, NoDup (map arg_id acc) -> NoDup (map arg_id (visit acc node)).
Proof.
  intros node acc H. unfold visit. destruct (ec_node_id node) as [i|]; [|exact H].
  destruct (qualifies node) ; simpl; [|exact H].
  destruct (find_arg acc i) eqn:E; simpl; [exact H|].
  apply find_arg_false in E. rewrite map_app. simpl.
  apply NoDup_app; [exact H | repeat constructor; intros [] | ].
  intros a Ha [<-|[]]. contradiction.
Qed.

Lemma fold_visit_nodup :
  forall nodes acc,
    NoDup (map arg_id acc) -> NoDup (map arg_id (fold_left visit nodes acc)).
Proof.
  induction nodes as [|n rest IH]; intros acc H; simpl; [exact H|].
  apply IH. now apply visit_nodup.
Qed.

(** C3: when no allocation fails, the collector returns 0 with the entries of
    a pre-order walk in which a node is appended iff it has a real id, its
    type is UnsignedInt, Int, DynamicValue or Regex, and no entry has its id
    yet; the children of every node are walked whether it was appended or
    not, and no two entries of the result share an id. *)
Theorem argument_collection :
  forall node args w,
    never_fails w ->
    fst (fst (collect_arguments node args w)) = 0 /\
    vec_entries (snd (fst (collect_arguments node args w)))
    = collected node (vec_entries args) /\
    (NoDup (map arg_id (vec_entries args)) ->
     NoDup (map arg_id (vec_entries (snd (fst (collect_arguments node args w)))))).
Proof.
  intros node args w Hw. pose proof (collect_arguments_post node args w) as H.
  destruct (collect_arguments node args w) as [[rc a1] w1]. simpl.
  destruct H as (_ & _ & _ & _ & H).
  rewrite (never_fails_grants w _ Hw) in H. destruct H as (-> & -> & _).
  repeat split. intro Hnd. now apply fold_visit_nodup.
Qed.

Lemma collect_variants_post :
  forall kids args w,
    collect_post (preorder_children preorder kids) args w
      (if fst (fst (collect_variants kids args w)) then - ENOMEM else 0,
       snd (fst (collect_variants kids args w)),
       snd (collect_variants kids args w)).
Proof.
  induction kids as [|k rest IH]; intros args w.
  - unfold collect_post, allocations_needed. simpl.
    rewrite Nat.sub_diag. simpl. repeat split; lia.
  - destruct k as [child|]; [|apply IH].
    cbn [collect_variants preorder_children].
    pose proof (collect_arguments_post child args w) as Hk.
    destruct (collect_arguments child args w) as [[rc a1] w1].
    destruct (collect_post_negative _ _ _ _ _ _ Hk) as [Hneg _].
    destruct (rc <? 0) eqn:E; cbn [fst snd].
    + assert (Hg : grants (allocations_needed (preorder child) (vec_entries args))
                     (oracle w) = false)
        by (destruct (grants _ _); [discriminate | reflexivity]).
      assert (Hrc : rc = - ENOMEM).
      { destruct Hk as (_ & _ & _ & _ & Hk). rewrite Hg in Hk. now destruct Hk. }
      subst rc. now apply collect_post_failed.
    + eapply collect_post_granted; [exact Hk | | apply IH].
      now destruct (grants _ _).
Qed.

Lemma out_free_args : forall args w, out (free_args args w) = out w.
Proof. now destruct args. Qed.

Lemma err_free_args : forall args w, err (free_args args w) = err w.
Proof. now destruct args. Qed.

Lemma live_free_args :
  forall args w, live (free_args args w) = (live w - blocks args)%nat.
Proof.
  destruct args; intros w; simpl; lia.
Qed.

(** The world in which [print_command_details] starts to collect. *)
Lemma print_command_details_post :
  forall ctx_name or_node with_header w,
    let needed :=
      allocations_needed (preorder_children preorder (ec_node_children or_node)) [] in
    let r := print_command_details ctx_name or_node with_header w in
    live (snd r) = live w /\
    if grants needed (oracle w)
    then fst r = 0 /\ err (snd r) = err w /\
         out (snd r) = out w ++ command_details_text ctx_name or_node with_header
    else fst r = -1 /\ err (snd r) = err w ++ "Error: memory allocation failed" ++ LF /\
         out (snd r) = out w ++ details_prologue ctx_name or_node with_header.
Proof.
  intros ctx_name or_node with_header w needed r. subst r.
  unfold print_command_details.
  set (w1 := printf ("# ARGUMENTS" ++ LF ++ LF) _).
  assert (Hout : out w1 = out w ++ details_prologue ctx_name or_node with_header).
  { subst w1. unfold details_prologue. rewrite !out_printf.
    destruct (negb (with_header =? 0)).
    - destruct (get_command_help or_node); rewrite !out_printf;
        now rewrite !string_app_assoc.
    - now rewrite !string_app_assoc. }
  assert (Hrest : err w1 = err w /\ live w1 = live w /\ oracle w1 = oracle w).
  { subst w1. destruct (negb (with_header =? 0)); [destruct (get_command_help or_node)|];
      repeat split. }
  destruct Hrest as (Herr & Hlive & Horacle).
  pose proof (collect_variants_post (ec_node_children or_node) None w1) as H.
  destruct (collect_variants (ec_node_children or_node) None w1) as [[failed args] w2].
  cbn [fst snd] in H. unfold collect_post in H. cbn [vec_entries blocks] in H.
  destruct H as (Ho & He & _ & Hl & H).
  rewrite Horacle in H. fold needed in H.
  destruct (grants needed (oracle w)).
  - destruct H as (Hrc & Hent & _). destruct failed; [discriminate|].
    cbn [fst snd]. rewrite out_printf, out_free_args, out_printf.
    split; [|split; [reflexivity|split]].
    + cbn [live printf]. rewrite live_free_args. cbn [live printf]. lia.
    + cbn [err printf]. rewrite err_free_args. cbn [err printf]. congruence.
    + rewrite Ho, Hout, Hent. unfold command_details_text, collected_variants.
      now rewrite !string_app_assoc.
  - destruct H as (Hrc & _). destruct failed; [|discriminate].
    cbn [fst snd]. rewrite out_free_args, err_free_args, live_free_args.
    cbn [out err live fprintf_stderr].
    repeat split; [lia | congruence | congruence].
Qed.

(** C8: a refused growth of the entry vector makes the collector return the
    allocation-failure code at once; the emitter then reports the error,
    returns -1 and has printed nothing after the heading of the ARGUMENTS
    section; the entry vector is released before the emitter returns, on the
    success path and on the failure path alike. *)
Theorem allocation_failure_is_reported :
  forall ctx_name or_node with_header w,
    let needed :=
      allocations_needed (preorder_children preorder (ec_node_children or_node)) [] in
    let r := print_command_details ctx_name or_node with_header w in
    (forall node args w0,
        grants (allocations_needed (preorder node) (vec_entries args)) (oracle w0) = false ->
        fst (fst (collect_arguments node args w0)) = - ENOMEM /\ - ENOMEM < 0) /\
    live (snd r) = live w /\
    (grants needed (oracle w) = false ->
     fst r = -1 /\
     err (snd r) = err w ++ "Error: memory allocation failed" ++ LF /\
     out (snd r) = out w ++ details_prologue ctx_name or_node with_header) /\
    (grants needed (oracle w) = true ->
     fst r = 0 /\ err (snd r) = err w).
Proof.
  intros ctx_name or_node with_header w needed r.
  pose proof (print_command_details_post ctx_name or_node with_header w) as H.
  cbv zeta in H. fold needed in H. fold r in H. destruct H as [Hlive H].
  split; [|split; [exact Hlive|split]].
  - intros node args w0 Hg. pose proof (collect_arguments_post node args w0) as Hc.
    destruct (collect_arguments node args w0) as [[rc a1] w1]. simpl.
    destruct Hc as (_ & _ & _ & _ & Hc). rewrite Hg in Hc. destruct Hc as [-> _].
    split; [reflexivity | reflexivity].
  - intro Hg. rewrite Hg in H. exact H.
  - intro Hg. rewrite Hg in H. destruct H as (H1 & H2 & _). now split.
Qed.

(** ** The command resolver *)

Lemma seq_shape_matches_spec :
  forall requested_cmd node,
    seq_shape_matches requested_cmd node = true <->
    (2 <= ec_node_get_children_count node)%nat /\
    exists str_node or_node,
      ec_node_get_child node 0 = Some str_node /\
      ec_node_get_child node 1 = Some or_node /\
      ec_node_id or_node = Some requested_cmd /\
      requested_cmd <> EC_NO_ID.
Proof.
  intros requested_cmd node. unfold seq_shape_matches.
  rewrite andb_true_iff, Nat.leb_le. split.
  - intros [Hcount H]. split; [exact Hcount|].
    destruct (ec_node_get_child node 0) as [s|]; [|discriminate].
    destruct (ec_node_get_child node 1) as [o|]; [|discriminate].
    destruct (ec_node_id o) as [name|] eqn:Hid; [|discriminate].
    apply andb_true_iff in H. destruct H as [Hreal Hname].
    apply String.eqb_eq in Hname. subst name.
    apply negb_true_iff, String.eqb_neq in Hreal.
    exists s, o. auto.
  - intros [Hcount (s & o & -> & -> & -> & Hreal)]. split; [exact Hcount|].
    apply String.eqb_neq in Hreal. now rewrite Hreal, String.eqb_refl.
Qed.

Lemma process_seq_node_no_match :
  forall node requested_cmd found w,
    seq_shape_matches requested_cmd node = false ->
    process_seq_node node requested_cmd found w = (0, found, w).
Proof.
  intros node requested_cmd found w H. unfold seq_shape_matches in H.
  unfold process_seq_node.
  destruct (Nat.ltb_spec (ec_node_get_children_count node) 2) as [Hlt|Hge];
    [reflexivity|].
  apply Nat.leb_le in Hge. rewrite Hge in H. simpl in H.
  destruct (ec_node_get_child node 0) as [s|]; [|reflexivity].
  destruct (ec_node_get_child node 1) as [o|]; [|reflexivity].
  destruct (ec_node_id o) as [name|]; [|reflexivity].
  destruct (String.eqb name EC_NO_ID); [reflexivity|]. simpl in H.
  now rewrite H.
Qed.

Lemma process_seq_node_match :
  forall node requested_cmd found w str_node or_node,
    seq_shape_matches requested_cmd node = true ->
    ec_node_get_child node 0 = Some str_node ->
    ec_node_get_child node 1 = Some or_node ->
    process_seq_node node requested_cmd found w
    = let w1 := printf (print_man_page_header requested_cmd (ec_node_help str_node)) w in
      let (rc, w2) := print_command_details requested_cmd or_node 0 w1 in
      if rc <? 0 then (-1, found, w2) else (0, true, w2).
Proof.
  intros node requested_cmd found w str_node or_node H H0 H1.
  apply seq_shape_matches_spec in H.
  destruct H as [Hcount (s & o & K0 & K1 & Hid & Hreal)].
  rewrite H0 in K0. rewrite H1 in K1. injection K0 as <-. injection K1 as <-.
  unfold process_seq_node.
  destruct (Nat.ltb_spec (ec_node_get_children_count node) 2) as [Hlt|_]; [lia|].
  rewrite H0, H1, Hid. apply String.eqb_neq in Hreal.
  now rewrite Hreal, String.eqb_refl.
Qed.

Lemma never_fails_alloc_request :
  forall w, never_fails w ->
    fst (alloc_request w) = true /\ never_fails (snd (alloc_request w)).
Proof.
  unfold never_fails, alloc_request. intros w H.
  destruct (oracle w) as [|b rest] eqn:E; simpl.
  - now rewrite E.
  - inversion H; subst. auto.
Qed.

Lemma err_alloc_request : forall w, err (snd (alloc_request w)) = err w.
Proof. intro w. unfold alloc_request. now destruct (oracle w). Qed.

Lemma process_cmd_node_no_match :
  forall node requested_cmd found w,
    cmd_shape_matches requested_cmd node = false ->
    let r := process_cmd_node node requested_cmd found w in
    snd (fst r) = found /\
    out (snd r) = out w /\
    ((fst (fst r) = 0 /\ err (snd r) = err w) \/
     (fst (fst r) = -1 /\ err (snd r) = err w ++ "Error: memory allocation failed" ++ LF)) /\
    (never_fails w ->
     fst (fst r) = 0 /\ err (snd r) = err w /\ never_fails (snd r)).
Proof.
  intros node requested_cmd found w H r. subst r.
  unfold cmd_shape_matches in H. unfold process_cmd_node.
  destruct (ec_node_id node) as [full_id|]; [|cbn [fst snd]; intuition auto].
  destruct (String.eqb full_id EC_NO_ID); [cbn [fst snd]; intuition auto|].
  simpl in H. unfold strdup.
  pose proof (out_alloc_request w) as Ho. pose proof (err_alloc_request w) as He.
  pose proof (never_fails_alloc_request w) as Hn.
  destruct (alloc_request w) as [ok w1]. cbn [fst snd] in *.
  destruct ok.
  - rewrite truncated_copy, H. cbn [negb fst snd].
    split; [reflexivity|]. split; [exact Ho|].
    split; [left; split; [reflexivity | exact He]|].
    intro Hw. destruct (Hn Hw) as [_ Hn1].
    split; [reflexivity|]. split; [exact He | exact Hn1].
  - cbn [fst snd]. split; [reflexivity|]. split; [exact Ho|].
    split.
    + right. split; [reflexivity|]. cbn [err fprintf_stderr set_errno]. now rewrite He.
    + intro Hw. destruct (Hn Hw) as [K _]. discriminate K.
Qed.

(** The loop of [print_man_page] over children none of which is accepted. *)
Lemma print_man_page_loop_no_match :
  forall requested_cmd kids found w,
    (forall node, In (Some node) kids -> child_matches requested_cmd node = false) ->
    let r := print_man_page_loop kids requested_cmd found w in
    snd (fst r) = found /\
    out (snd r) = out w /\
    ((fst (fst r) = None /\ err (snd r) = err w) \/
     (fst (fst r) = Some EXIT_FAILURE /\
      err (snd r) = err w ++ "Error: memory allocation failed" ++ LF)) /\
    (never_fails w ->
     fst (fst r) = None /\ err (snd r) = err w /\ never_fails (snd r)).
Proof.
  intros requested_cmd kids.
  induction kids as [|k rest IH]; intros found w Hall r; subst r.
  - cbn [print_man_page_loop fst snd]. intuition auto.
  - assert (Hrest : forall node, In (Some node) rest ->
                                 child_matches requested_cmd node = false)
      by (intros node Hin; apply Hall; now right).
    destruct k as [node|]; [|apply IH; exact Hrest].
    assert (Hnode : child_matches requested_cmd node = false)
      by (apply Hall; now left).
    unfold child_matches in Hnode. cbn [print_man_page_loop].
    destruct (get_node_type node); try (apply IH; exact Hrest).
    + rewrite (process_seq_node_no_match _ _ _ _ Hnode). cbn [Z.ltb Z.compare].
      destruct found; [cbn [fst snd]; intuition auto | apply IH; exact Hrest].
    + pose proof (process_cmd_node_no_match node requested_cmd found w Hnode) as Hc.
      cbv zeta in Hc.
      destruct (process_cmd_node node requested_cmd found w) as [[rc found1] w1].
      cbn [fst snd] in Hc. destruct Hc as (-> & Ho & He & Hn).
      destruct He as [[-> He]|[-> He]]; cbn [Z.ltb Z.compare].
      * destruct found; [cbn [fst snd]; intuition auto|].
        specialize (IH false w1 Hrest). cbv zeta in IH.
        destruct IH as (I1 & I2 & I3 & I4). rewrite Ho, He in *.
        split; [exact I1|]. split; [exact I2|]. split; [exact I3|].
        intro Hw. destruct (Hn Hw) as (_ & _ & K). exact (I4 K).
      * cbn [fst snd]. split; [reflexivity|]. split; [exact Ho|].
        split; [right; split; [reflexivity | exact He]|].
        intro Hw. destruct (Hn Hw) as [K _]. discriminate K.
Qed.

(** C7: when no top-level child is accepted for the requested name,
    [print_man_page] returns EXIT_FAILURE, which is not 0, writes nothing to
    stdout and writes a diagnostic to stderr: the one that names the unknown
    command, unless [strdup] failed on the way. *)
Theorem unknown_command_fails :
  forall cmdlist requested_cmd w,
    (forall node, In (Some node) (ec_node_children cmdlist) ->
                  child_matches requested_cmd node = false) ->
    let r := print_man_page cmdlist requested_cmd w in
    fst r = EXIT_FAILURE /\
    EXIT_FAILURE <> 0 /\
    out (snd r) = out w /\
    (never_fails w ->
     err (snd r) = err w ++ "Error: unknown command '" ++ requested_cmd ++ "'" ++ LF) /\
    (exists diagnostic,
        diagnostic <> EmptyString /\ err (snd r) = err w ++ diagnostic).
Proof.
  intros cmdlist requested_cmd w Hall r. subst r. unfold print_man_page.
  pose proof (print_man_page_loop_no_match requested_cmd _ false w Hall) as H.
  cbv zeta in H.
  destruct (print_man_page_loop (ec_node_children cmdlist) requested_cmd false w)
    as [[returned found] w1].
  cbn [fst snd] in H. destruct H as (-> & Ho & He & Hn).
  split; [|split; [discriminate|]].
  - destruct He as [[-> _]|[-> _]]; reflexivity.
  - destruct He as [[-> He]|[-> He]]; cbn [negb fst snd out err fprintf_stderr].
    + split; [exact Ho|]. rewrite He. split; [reflexivity|].
      eexists. split; [|reflexivity]. discriminate.
    + split; [exact Ho|]. split.
      * intro Hw. destruct (Hn Hw) as [K _]. discriminate K.
      * eexists. split; [|exact He]. discriminate.
Qed.

Lemma print_man_page_loop_skip :
  forall requested_cmd before rest w,
    (forall node, In (Some node) before -> child_matches requested_cmd node = false) ->
    never_fails w ->
    exists w1,
      print_man_page_loop (before ++ rest) requested_cmd false w
      = print_man_page_loop rest requested_cmd false w1
      /\ out w1 = out w /\ err w1 = err w /\ never_fails w1.
Proof.
  intros requested_cmd before rest.
  induction before as [|k before IH]; intros w Hall Hw.
  - exists w. repeat split; auto.
  - assert (Hrest : forall node, In (Some node) before ->
                                 child_matches requested_cmd node = false)
      by (intros node Hin; apply Hall; now right).
    destruct k as [node|]; [|now apply IH].
    assert (Hnode : child_matches requested_cmd node = false)
      by (apply Hall; now left).
    unfold child_matches in Hnode.
    change ((Some node :: before) ++ rest)%list
      with (Some node :: (before ++ rest))%list.
    cbn [print_man_page_loop].
    destruct (get_node_type node); try (now apply IH).
    + rewrite (process_seq_node_no_match _ _ _ _ Hnode). cbn [Z.ltb Z.compare].
      now apply IH.
    + pose proof (process_cmd_node_no_match node requested_cmd false w Hnode) as Hc.
      cbv zeta in Hc.
      destruct (process_cmd_node node requested_cmd false w) as [[rc found1] w1].
      cbn [fst snd] in Hc. destruct Hc as (-> & Ho & _ & Hn).
      destruct (Hn Hw) as (-> & He & Hw1). cbn [Z.ltb Z.compare].
      destruct (IH w1 Hrest Hw1) as (w2 & Heq & Ho2 & He2 & Hw2).
      exists w2. repeat split; congruence.
Qed.

(** C1, as the code has it: [process_seq_node] accepts a node iff it has at
    least two children, both retrievable, and child 1 carries a real id equal
    to the requested name; the types of child 0 and child 1 are not looked
    at.  A node that is not accepted leaves everything as it was; for an
    accepted one the page header is printed with the help of child 0 and the
    subtree of child 1 is documented.  The first accepted top-level child is
    the one whose page is printed. *)
Theorem sequence_shape_resolution :
  forall node requested_cmd found w,
    (seq_shape_matches requested_cmd node = true <->
     (2 <= ec_node_get_children_count node)%nat /\
     exists str_node or_node,
       ec_node_get_child node 0 = Some str_node /\
       ec_node_get_child node 1 = Some or_node /\
       ec_node_id or_node = Some requested_cmd /\
       requested_cmd <> EC_NO_ID) /\
    (seq_shape_matches requested_cmd node = false ->
     process_seq_node node requested_cmd found w = (0, found, w)) /\
    (forall str_node or_node,
        seq_shape_matches requested_cmd node = true ->
        ec_node_get_child node 0 = Some str_node ->
        ec_node_get_child node 1 = Some or_node ->
        process_seq_node node requested_cmd found w
        = let w1 :=
            printf (print_man_page_header requested_cmd (ec_node_help str_node)) w in
          let (rc, w2) := print_command_details requested_cmd or_node 0 w1 in
          if rc <? 0 then (-1, found, w2) else (0, true, w2)) /\
    (forall cmdlist before after str_node or_node,
        ec_node_children cmdlist = (before ++ Some node :: after)%list ->
        (forall m, In (Some m) before -> child_matches requested_cmd m = false) ->
        get_node_type node = NODE_TYPE_SEQ ->
        seq_shape_matches requested_cmd node = true ->
        ec_node_get_child node 0 = Some str_node ->
        ec_node_get_child node 1 = Some or_node ->
        never_fails w ->
        let r := print_man_page cmdlist requested_cmd w in
        fst r = EXIT_SUCCESS /\
        err (snd r) = err w /\
        out (snd r)
        = out w ++
          print_man_page_header requested_cmd (ec_node_help str_node) ++
          command_details_text requested_cmd or_node 0).
Proof.
  intros node requested_cmd found w.
  split; [apply seq_shape_matches_spec|].
  split; [apply process_seq_node_no_match|].
  split; [intros; now apply process_seq_node_match|].
  intros cmdlist before after str_node or_node Hkids Hbefore Htype Hmatch H0 H1 Hw r.
  subst r. unfold print_man_page. rewrite Hkids.
  destruct (print_man_page_loop_skip requested_cmd before (Some node :: after) w
              Hbefore Hw) as (w1 & -> & Ho & He & Hw1).
  cbn [print_man_page_loop]. rewrite Htype.
  rewrite (process_seq_node_match _ _ _ _ _ _ Hmatch H0 H1). cbv zeta.
  set (w2 := printf _ w1).
  pose proof (print_command_details_post requested_cmd or_node 0 w2) as Hd.
  cbv zeta in Hd. rewrite never_fails_grants in Hd by exact Hw1.
  destruct (print_command_details requested_cmd or_node 0 w2) as [rc w3].
  cbn [fst snd] in Hd. destruct Hd as (_ & -> & He3 & Ho3).
  cbn [Z.ltb Z.compare negb fst snd].
  split; [reflexivity|]. split.
  - rewrite He3. subst w2. cbn [err printf]. exact He.
  - rewrite Ho3. subst w2. rewrite out_printf, Ho. now rewrite !string_app_assoc.
Qed.

(** C9: the four flags of the classifier say which ids occur among the
    collected entries, and the SEE ALSO section names the page of a flag iff
    the flag is set and the command is not the own topic of that page; the
    section closes the page [print_command_details] emits, computed from the
    entries collected over all the variants. *)
Theorem cross_reference_classification :
  forall (args : list arg_entry) (ctx_name : string),
    let f := classify_arguments args in
    (has_iface f = true
     <-> exists e, In e args /\ (arg_id e = "IFACE" \/ arg_id e = "NAME")) /\
    (has_vrf f = true
     <-> exists e, In e args /\ arg_id e = "VRF") /\
    (has_nexthop f = true
     <-> exists e, In e args /\
                   (arg_id e = "NH" \/ arg_id e = "NH_ID" \/ arg_id e = "SEGLIST")) /\
    (has_address f = true
     <-> exists e, In e args /\
                   (arg_id e = "ADDR" \/ arg_id e = "IP" \/ arg_id e = "DEST")) /\
    (occurs "**grcli-interface**(1)" (print_see_also ctx_name f) = true
     <-> has_iface f = true /\ ctx_name <> "interface") /\
    (occurs "**grcli-address**(1)" (print_see_also ctx_name f) = true
     <-> has_address f = true /\ ctx_name <> "address") /\
    (occurs "**grcli-nexthop**(1)" (print_see_also ctx_name f) = true
     <-> has_nexthop f = true /\ ctx_name <> "nexthop") /\
    (occurs "**grcli-route**(1)" (print_see_also ctx_name f) = true
     <-> has_vrf f = true /\ ctx_name <> "route") /\
    (forall or_node with_header w,
        let entries := collected_variants (ec_node_children or_node) [] in
        grants (List.length entries) (oracle w) = true ->
        out (snd (print_command_details ctx_name or_node with_header w))
        = out w ++
          details_prologue ctx_name or_node with_header ++
          print_arguments_help entries ++
          print_see_also ctx_name (classify_arguments entries)).
Proof.
  intros args ctx_name f.
  destruct (classify_fold_flags args (XrefFlags false false false false))
    as (H1 & H2 & H3 & H4).
  fold (classify_arguments args) in H1, H2, H3, H4. fold f in H1, H2, H3, H4.
  simpl in H1, H2, H3, H4.
  destruct (see_also_references ctx_name f) as (S1 & S2 & S3 & S4).
  split; [|split; [|split; [|split; [|split; [exact S1|split; [exact S2|split;
    [exact S3|split; [exact S4|]]]]]]]].
  5: { intros or_node with_header w entries Hg.
       pose proof (print_command_details_post ctx_name or_node with_header w) as Hd.
       cbv zeta in Hd. unfold allocations_needed in Hd.
       fold (collected_variants (ec_node_children or_node) []) in Hd.
       fold entries in Hd. cbn [List.length] in Hd. rewrite Nat.sub_0_r, Hg in Hd.
       destruct Hd as (_ & _ & _ & ->). reflexivity. }
  all: first [rewrite H1 | rewrite H2 | rewrite H3 | rewrite H4];
    rewrite existsb_exists; split; intros [e [Hin He]]; exists e;
    (split; [exact Hin|]).
  all: try (repeat (apply orb_true_iff in He; destruct He as [He|He]);
            apply String.eqb_eq in He; now auto).
  all: repeat (destruct He as [He|He]); rewrite He; reflexivity.
Qed.

(** ** Further properties: node types and page headers *)

(** X1: the classification of type names is exact: a name is given a type
    other than Unknown iff it is, letter for letter, the ecoli name of that
    type; every other name, whatever its case, is Unknown. *)
Theorem get_node_type_names :
  forall (type : string) (t : ec_node_type_enum),
    (get_node_type_of_name type = t /\ t <> NODE_TYPE_UNKNOWN)
    <-> node_type_name t = Some type.
Proof.
  intros type t. split.
  - intros [H Hknown]. subst t. revert Hknown.
    unfold get_node_type_of_name. string_cases; intro H;
      first [reflexivity | now contradiction H].
  - intro H. destruct t; simpl in H; try discriminate H;
      injection H as <-; (split; [reflexivity | discriminate]).
Qed.

Lemma substring_prefix_length :
  forall n s, String.length (substring 0 n s) = Nat.min n (String.length s).
Proof.
  induction n as [|n IH]; intro s.
  - now destruct s.
  - destruct s as [|c rest]; simpl; [reflexivity|]. now rewrite IH.
Qed.

Lemma substring_prefix_short :
  forall n s, (String.length s <= n)%nat -> substring 0 n s = s.
Proof.
  induction n as [|n IH]; intros s H.
  - destruct s; [reflexivity | simpl in H; lia].
  - destruct s as [|c rest]; simpl; [reflexivity|].
    simpl in H. rewrite IH by lia. reflexivity.
Qed.

Lemma count_char_app :
  forall c a b, count_char c (a ++ b) = (count_char c a + count_char c b)%nat.
Proof.
  intros c a b. induction a as [|x a IH]; simpl; [reflexivity|].
  rewrite IH. lia.
Qed.

Lemma string_length_app :
  forall a b : string, String.length (a ++ b) = (String.length a + String.length b)%nat.
Proof.
  induction a as [|x a IH]; intro b; simpl; [reflexivity|]. now rewrite IH.
Qed.

Lemma repeat_eq_length : forall n, String.length (repeat_eq n) = n.
Proof. induction n as [|n IH]; simpl; [reflexivity|]. now rewrite IH. Qed.

Lemma repeat_eq_count : forall n, count_char "="%char (repeat_eq n) = n.
Proof. induction n as [|n IH]; simpl; [reflexivity|]. now rewrite IH. Qed.

Lemma substring_prefix_split :
  forall n s, exists dropped, s = substring 0 n s ++ dropped.
Proof.
  induction n as [|n IH]; intro s.
  - exists s. now destruct s.
  - destruct s as [|c rest]; [now exists EmptyString|].
    destruct (IH rest) as [dropped H]. exists dropped. simpl. now rewrite <- H.
Qed.

(** X2: the title line of a command page is the first 127 characters of the
    formatted title (the whole of it when it is that short); under it comes
    a rule of as many equal signs as the printed title has characters, two
    newlines, and the NAME section with the name of the page and the help
    text. *)
Theorem man_page_header_title :
  forall cmd_name help_text,
    let full :=
      "GRCLI-" ++ cmd_name ++ " 1 " ++ DQUOTE ++ "grout " ++ GROUT_VERSION ++ DQUOTE in
    exists title dropped rule,
      full = title ++ dropped /\
      String.length title = Nat.min 127 (String.length full) /\
      ((String.length full <= 127)%nat -> title = full) /\
      String.length rule = String.length title /\
      count_char "="%char rule = String.length rule /\
      man_print_title_underline title = rule ++ LF ++ LF /\
      print_man_page_header cmd_name help_text
      = title ++ LF ++ rule ++ LF ++ LF ++
        "# NAME" ++ LF ++ LF ++
        "**grcli-" ++ cmd_name ++ "** -- " ++
        match help_text with
        | Some h => h
        | None => EmptyString
        end ++ LF ++ LF.
Proof.
  intros cmd_name help_text full.
  destruct (substring_prefix_split 127 full) as [dropped Hsplit].
  exists (string_upto 127 full), dropped,
    (repeat_eq (String.length (string_upto 127 full))).
  unfold string_upto.
  split; [exact Hsplit|]. split; [apply substring_prefix_length|].
  split; [apply substring_prefix_short|].
  split; [apply repeat_eq_length|].
  split; [now rewrite repeat_eq_count, repeat_eq_length|].
  split; [reflexivity|].
  unfold print_man_page_header, man_print_title_underline, string_upto. fold full.
  now rewrite !string_app_assoc.
Qed.

(** ** Further properties: the synopsis renderer *)

Lemma for_children_ext :
  forall (b1 b2 : nat -> ec_node -> string) kids,
    children_all (fun child => forall i, b1 i child = b2 i child) kids ->
    forall i, for_children b1 kids i = for_children b2 kids i.
Proof.
  intros b1 b2 kids H. induction H as [|k rest Hk _ IH]; intro i; simpl;
    [reflexivity|].
  destruct k as [child|]; [|apply IH]. now rewrite Hk, IH.
Qed.

Lemma children_all_impl :
  forall (P Q : ec_node -> Prop) kids,
    (forall child, P child -> Q child) -> children_all P kids -> children_all Q kids.
Proof.
  intros P Q kids HPQ H. unfold children_all in *.
  eapply Forall_impl; [|exact H]. intros [child|]; [apply HPQ | auto].
Qed.

Lemma print_node_synopsis_eq :
  forall type id help desc kids depth,
    print_node_synopsis (Node type id help desc kids) depth
    = match get_node_type_of_name type with
      | NODE_TYPE_STR =>
          match desc with
          | Some d => " " ++ d
          | None => EmptyString
          end
      | NODE_TYPE_UINT | NODE_TYPE_INT =>
          " _" ++ match id with
                  | Some i => if negb (String.eqb i EC_NO_ID) then i else "NUM"
                  | None => "NUM"
                  end ++ "_"
      | NODE_TYPE_DYN | NODE_TYPE_RE =>
          " _" ++ match id with
                  | Some i => if negb (String.eqb i EC_NO_ID) then i else "ARG"
                  | None => "ARG"
                  end ++ "_"
      | NODE_TYPE_OR =>
          match kids with
          | [] => EmptyString
          | _ :: _ =>
              " (" ++
              for_children
                (fun i child =>
                   (if (0 <? i)%nat then " |" else EmptyString) ++
                   print_node_synopsis child (depth + 1))
                kids 0 ++
              " )"
          end
      | NODE_TYPE_SEQ | NODE_TYPE_CMD =>
          for_children (fun _ child => print_node_synopsis child (depth + 1)) kids 0
      | NODE_TYPE_OPTION | NODE_TYPE_MANY =>
          match kids with
          | [] => EmptyString
          | _ :: _ =>
              " [" ++
              for_children (fun _ child => print_node_synopsis child (depth + 1)) kids 0 ++
              " ]"
          end
      | NODE_TYPE_SUBSET =>
          for_children
            (fun _ child => " [" ++ print_node_synopsis child (depth + 1) ++ " ]")
            kids 0
      | NODE_TYPE_UNKNOWN => EmptyString
      end.
Proof. reflexivity. Qed.

(** X3: the depth argument of the synopsis renderer never reaches the
    output: a subtree is rendered alike at every depth. *)
Theorem print_node_synopsis_depth :
  forall node depth1 depth2,
    print_node_synopsis node depth1 = print_node_synopsis node depth2.
Proof.
  induction node as [type id help desc kids IH] using ec_node_tree_ind.
  intros depth1 depth2. rewrite !print_node_synopsis_eq.
  assert (H1 : forall i,
             for_children (fun _ child => print_node_synopsis child (depth1 + 1)) kids i
             = for_children (fun _ child => print_node_synopsis child (depth2 + 1)) kids i).
  { apply for_children_ext. eapply children_all_impl; [|exact IH].
    intros child H _. apply H. }
  assert (H2 : forall i,
             for_children
               (fun j child => (if (0 <? j)%nat then " |" else EmptyString) ++
                               print_node_synopsis child (depth1 + 1)) kids i
             = for_children
                 (fun j child => (if (0 <? j)%nat then " |" else EmptyString) ++
                                 print_node_synopsis child (depth2 + 1)) kids i).
  { apply for_children_ext. eapply children_all_impl; [|exact IH].
    intros child H j. now rewrite (H (depth1 + 1) (depth2 + 1)). }
  assert (H3 : forall i,
             for_children
               (fun _ child => " [" ++ print_node_synopsis child (depth1 + 1) ++ " ]") kids i
             = for_children
                 (fun _ child => " [" ++ print_node_synopsis child (depth2 + 1) ++ " ]")
                 kids i).
  { apply for_children_ext. eapply children_all_impl; [|exact IH].
    intros child H j. now rewrite (H (depth1 + 1) (depth2 + 1)). }
  destruct (get_node_type_of_name type); try reflexivity;
    try apply H1; try apply H3;
    destruct kids; try reflexivity; now rewrite ?H1, ?H2.
Qed.

(** X4: an Optional or Repeated node without children prints nothing; with
    children it prints one pair of square brackets around the concatenated
    synopses of its children. *)
Theorem optional_synopsis :
  forall node depth,
    get_node_type node = NODE_TYPE_OPTION \/ get_node_type node = NODE_TYPE_MANY ->
    (ec_node_get_children_count node = 0%nat ->
     print_node_synopsis node depth = EmptyString) /\
    ((0 < ec_node_get_children_count node)%nat ->
     print_node_synopsis node depth
     = " [" ++
       concat_strings
         (map (fun child => print_node_synopsis child (depth + 1))
              (present_children (ec_node_children node))) ++
       " ]").
Proof.
  intros node depth Htype. destruct node as [type id help desc kids].
  unfold get_node_type in Htype. simpl in Htype.
  unfold ec_node_get_children_count. simpl ec_node_children.
  rewrite print_node_synopsis_eq. split.
  - intro Hcount. destruct kids; [|discriminate].
    destruct Htype as [-> | ->]; reflexivity.
  - intro Hcount. destruct kids as [|k rest]; [simpl in Hcount; lia|].
    rewrite <- (for_children_concat _ (k :: rest) 0).
    destruct Htype as [-> | ->]; reflexivity.
Qed.

(** X5: an UnorderedSubset node brackets each of its children on its own:
    its synopsis is the concatenation of the bracketed synopses of its
    children, and nothing when it has none. *)
Theorem subset_synopsis :
  forall node depth,
    get_node_type node = NODE_TYPE_SUBSET ->
    print_node_synopsis node depth
    = concat_strings
        (map (fun child => " [" ++ print_node_synopsis child (depth + 1) ++ " ]")
             (present_children (ec_node_children node))).
Proof.
  intros node depth Htype. destruct node as [type id help desc kids].
  unfold get_node_type in Htype. simpl in Htype.
  rewrite print_node_synopsis_eq, Htype. simpl ec_node_children.
  apply (for_children_concat
           (fun child => " [" ++ print_node_synopsis child (depth + 1) ++ " ]")).
Qed.

Lemma balanced_app : forall a b, balanced a -> balanced b -> balanced (a ++ b).
Proof.
  unfold balanced. intros a b [A1 A2] [B1 B2]. rewrite !count_char_app. lia.
Qed.

Lemma bracket_free_balanced : forall s, bracket_free s -> balanced s.
Proof. unfold bracket_free, balanced. intros s (A & B & C & D). lia. Qed.

Lemma balanced_round : forall s, balanced s -> balanced (" (" ++ s ++ " )").
Proof.
  unfold balanced. intros s [A B]. rewrite !count_char_app. simpl. lia.
Qed.

Lemma balanced_square : forall s, balanced s -> balanced (" [" ++ s ++ " ]").
Proof.
  unfold balanced. intros s [A B]. rewrite !count_char_app. simpl. lia.
Qed.

Lemma for_children_balanced :
  forall (body : nat -> ec_node -> string) kids,
    (forall child, In (Some child) kids -> forall i, balanced (body i child)) ->
    forall i, balanced (for_children body kids i).
Proof.
  intros body kids. induction kids as [|k rest IH]; intros H i; simpl.
  - split; reflexivity.
  - destruct k as [child|].
    + apply balanced_app; [apply H; now left | apply IH; intros; apply H; now right].
    + apply IH. intros. apply H. now right.
Qed.

Lemma preorder_children_in :
  forall kids child n,
    In (Some child) kids -> In n (preorder child) ->
    In n (preorder_children preorder kids).
Proof.
  induction kids as [|k rest IH]; intros child n Hin Hn; [contradiction|].
  destruct Hin as [-> | Hin]; simpl.
  - apply in_or_app. now left.
  - destruct k; [apply in_or_app; right|]; eapply IH; eauto.
Qed.

Lemma plain_labels_child :
  forall type id help desc kids child,
    plain_labels (Node type id help desc kids) ->
    In (Some child) kids -> plain_labels child.
Proof.
  intros type id help desc kids child H Hin n Hn. apply H. simpl. right.
  eapply preorder_children_in; eauto.
Qed.

(** X6: when no id and no description of a subtree holds a bracket, the
    synopsis of the subtree has as many opening as closing parentheses and as
    many opening as closing square brackets. *)
Theorem print_node_synopsis_balanced :
  forall node depth,
    plain_labels node ->
    count_char "("%char (print_node_synopsis node depth)
    = count_char ")"%char (print_node_synopsis node depth) /\
    count_char "["%char (print_node_synopsis node depth)
    = count_char "]"%char (print_node_synopsis node depth).
Proof.
  intros node. change (forall depth, plain_labels node ->
                                     balanced (print_node_synopsis node depth)).
  induction node as [type id help desc kids IH] using ec_node_tree_ind.
  intros depth Hplain. rewrite print_node_synopsis_eq.
  assert (Hkids : forall child, In (Some child) kids ->
                                forall d, balanced (print_node_synopsis child d)).
  { intros child Hin d. unfold children_all in IH. rewrite Forall_forall in IH.
    apply (IH (Some child) Hin). eapply plain_labels_child; eauto. }
  destruct (Hplain (Node type id help desc kids) (or_introl eq_refl)) as [Hdesc Hid].
  simpl in Hdesc, Hid.
  assert (Hplaceholder : forall fallback,
             bracket_free fallback ->
             balanced (" _" ++ match id with
                               | Some i => if negb (String.eqb i EC_NO_ID) then i else fallback
                               | None => fallback
                               end ++ "_")).
  { intros fallback Hf. apply balanced_app; [split; reflexivity|].
    apply balanced_app; [|split; reflexivity].
    apply bracket_free_balanced.
    destruct id as [i|]; [|exact Hf]. destruct (negb (String.eqb i EC_NO_ID)); auto. }
  assert (Hseq : forall i,
             balanced (for_children
                         (fun _ child => print_node_synopsis child (depth + 1)) kids i)).
  { apply for_children_balanced. intros child Hin _. now apply Hkids. }
  destruct (get_node_type_of_name type).
  - destruct desc as [d|]; [|split; reflexivity].
    apply balanced_app; [split; reflexivity | apply bracket_free_balanced; auto].
  - apply Hplaceholder. repeat split.
  - apply Hplaceholder. repeat split.
  - apply Hplaceholder. repeat split.
  - apply Hplaceholder. repeat split.
  - destruct kids as [|k rest] eqn:E; [split; reflexivity|]. rewrite <- E in *.
    apply balanced_round. apply for_children_balanced. intros child Hin i.
    apply balanced_app; [destruct (0 <? i)%nat; split; reflexivity | now apply Hkids].
  - apply Hseq.
  - apply Hseq.
  - destruct kids as [|k rest] eqn:E; [split; reflexivity|]. rewrite <- E in *.
    apply balanced_square. apply Hseq.
  - destruct kids as [|k rest] eqn:E; [split; reflexivity|]. rewrite <- E in *.
    apply balanced_square. apply Hseq.
  - apply for_children_balanced. intros child Hin _.
    apply balanced_square. now apply Hkids.
  - split; reflexivity.
Qed.

(** ** Further properties: the option printer *)



Lemma toupper_capital : forall c, toupper c = capital c.
Proof.
  intro c. destruct c as [[] [] [] [] [] [] [] []]; reflexivity.
Qed.

Lemma string_toupper_capitals : forall s, string_toupper s = capitals s.
Proof.
  induction s as [|c rest IH]; simpl; [reflexivity|].
  now rewrite toupper_capital, IH.
Qed.

(** X8: for an option whose first child is a Sequence of two children or
    more, the option printer prints, between the opening and the closing of
    its mode, the flag names of child 0 of the Sequence when that is an
    Alternation, and then the id of child 1 between underscores with every
    lower-case letter replaced by its capital; there is no placeholder when
    child 1 cannot be retrieved or has no real id. *)
Theorem option_placeholder_upper_case :
  forall cmd_node child mode,
    ec_node_get_child cmd_node 0 = Some child ->
    get_node_type child = NODE_TYPE_SEQ ->
    (2 <= ec_node_get_children_count child)%nat ->
    print_option_syntax cmd_node mode
    = match mode with
      | SYNOPSIS_MODE => "["
      | OPTION_MODE => "#### "
      end ++
      match ec_node_get_child child 0 with
      | Some or_node =>
          match get_node_type or_node with
          | NODE_TYPE_OR => print_flag_names mode (ec_node_children or_node) true
          | _ => EmptyString
          end
      | None => EmptyString
      end ++
      match ec_node_get_child child 1 with
      | Some arg_node =>
          match ec_node_id arg_node with
          | Some arg_id =>
              if String.eqb arg_id EC_NO_ID then EmptyString
              else " _" ++ capitals arg_id ++ "_"
          | None => EmptyString
          end
      | None => EmptyString
      end ++
      match mode with
      | SYNOPSIS_MODE => "]" ++ LF
      | OPTION_MODE =>
          LF ++ LF ++
          match ec_node_help cmd_node with
          | Some help => help ++ LF ++ LF
          | None => EmptyString
          end
      end.
Proof.
  intros cmd_node child mode Hchild Htype Hcount.
  unfold print_option_syntax. rewrite Hchild, Htype.
  destruct (Nat.ltb_spec (ec_node_get_children_count child) 2) as [Hlt|_]; [lia|].
  assert (Hplace :
            match
              match ec_node_get_child child 1 with
              | Some arg_node =>
                  if has_real_id (ec_node_id arg_node) then ec_node_id arg_node else None
              | None => None
              end
            with
            | Some a => " _" ++ string_toupper a ++ "_"
            | None => EmptyString
            end
            = match ec_node_get_child child 1 with
              | Some arg_node =>
                  match ec_node_id arg_node with
                  | Some arg_id =>
                      if String.eqb arg_id EC_NO_ID then EmptyString
                      else " _" ++ capitals arg_id ++ "_"
                  | None => EmptyString
                  end
              | None => EmptyString
              end).
  { destruct (ec_node_get_child child 1) as [arg_node|]; [|reflexivity].
    unfold has_real_id. destruct (ec_node_id arg_node) as [a|]; [|reflexivity].
    destruct (String.eqb a EC_NO_ID); [reflexivity|]. simpl negb. cbv iota.
    now rewrite string_toupper_capitals. }
  rewrite Hplace. destruct mode; reflexivity.
Qed.

Lemma print_option_syntax_eq :
  forall cmd_node child mode,
    ec_node_get_child cmd_node 0 = Some child ->
    ~ (get_node_type child = NODE_TYPE_SEQ /\ (ec_node_get_children_count child < 2)%nat) ->
    exists body,
      print_option_syntax cmd_node mode
      = match mode with
        | SYNOPSIS_MODE => "[" ++ body ++ "]" ++ LF
        | OPTION_MODE =>
            "#### " ++ body ++ LF ++ LF ++
            match ec_node_help cmd_node with
            | Some help => help ++ LF ++ LF
            | None => EmptyString
            end
        end.
Proof.
  intros cmd_node child mode Hchild Hshort. unfold print_option_syntax.
  rewrite Hchild.
  destruct (get_node_type child) eqn:Htype;
    try (exists EmptyString; destruct mode; reflexivity).
  - exists (print_flag_names mode (ec_node_children child) true).
    destruct mode; reflexivity.
  - destruct (Nat.ltb_spec (ec_node_get_children_count child) 2) as [Hlt|Hge];
      [exfalso; apply Hshort; now split|].
    set (flags := match ec_node_get_child child 0 with
                  | Some or_node =>
                      match get_node_type or_node with
                      | NODE_TYPE_OR =>
                          print_flag_names mode (ec_node_children or_node) true
                      | _ => EmptyString
                      end
                  | None => EmptyString
                  end).
    set (placeholder := match
                          match ec_node_get_child child 1 with
                          | Some arg_node =>
                              if has_real_id (ec_node_id arg_node)
                              then ec_node_id arg_node else None
                          | None => None
                          end
                        with
                        | Some a => " _" ++ string_toupper a ++ "_"
                        | None => EmptyString
                        end).
    exists (flags ++ placeholder).
    destruct mode; rewrite (string_app_assoc flags placeholder); reflexivity.
Qed.

(** X9: the option printer closes what it opens in every case but two.  In
    synopsis mode the output is a bracketed line ended by a newline, and in
    option mode a heading followed by an empty line and the help of the
    option, iff the first child of the option can be retrieved and is not a
    Sequence with fewer than two children; without a first child nothing at
    all is printed. *)
Theorem print_option_syntax_closed :
  forall cmd_node,
    ((exists body,
         print_option_syntax cmd_node SYNOPSIS_MODE = "[" ++ body ++ "]" ++ LF)
     <-> exists child,
          ec_node_get_child cmd_node 0 = Some child /\
          ~ (get_node_type child = NODE_TYPE_SEQ /\
             (ec_node_get_children_count child < 2)%nat)) /\
    ((exists child,
         ec_node_get_child cmd_node 0 = Some child /\
         ~ (get_node_type child = NODE_TYPE_SEQ /\
            (ec_node_get_children_count child < 2)%nat)) ->
     exists body,
       print_option_syntax cmd_node OPTION_MODE
       = "#### " ++ body ++ LF ++ LF ++
         match ec_node_help cmd_node with
         | Some help => help ++ LF ++ LF
         | None => EmptyString
         end) /\
    (ec_node_get_child cmd_node 0 = None ->
     forall mode, print_option_syntax cmd_node mode = EmptyString).
Proof.
  intro cmd_node. split; [split|split].
  - intros [body Hbody].
    destruct (ec_node_get_child cmd_node 0) as [child|] eqn:Hchild.
    + exists child. split; [reflexivity|]. intros [Htype Hcount].
      unfold print_option_syntax in Hbody. rewrite Hchild, Htype in Hbody.
      apply Nat.ltb_lt in Hcount. rewrite Hcount in Hbody.
      destruct body; discriminate Hbody.
    + unfold print_option_syntax in Hbody. rewrite Hchild in Hbody.
      discriminate Hbody.
  - intros (child & Hchild & Hshort).
    apply (print_option_syntax_eq cmd_node child SYNOPSIS_MODE Hchild Hshort).
  - intros (child & Hchild & Hshort).
    apply (print_option_syntax_eq cmd_node child OPTION_MODE Hchild Hshort).
  - intros Hnone mode. unfold print_option_syntax. now rewrite Hnone.
Qed.

(** ** Further properties: the command resolver as a whole *)

Lemma alloc_request_keeps :
  forall w, live (snd (alloc_request w)) = live w /\ fault (snd (alloc_request w)) = fault w.
Proof. intro w. unfold alloc_request. now destruct (oracle w). Qed.

Lemma fault_free_args : forall args w, fault (free_args args w) = fault w.
Proof. now destruct args. Qed.

Lemma print_command_details_fault :
  forall ctx_name or_node with_header w,
    fault (snd (print_command_details ctx_name or_node with_header w)) = fault w.
Proof.
  intros ctx_name or_node with_header w. unfold print_command_details.
  set (w1 := printf ("# ARGUMENTS" ++ LF ++ LF) _).
  assert (Hw1 : fault w1 = fault w).
  { subst w1. destruct (negb (with_header =? 0)); [destruct (get_command_help or_node)|];
      reflexivity. }
  pose proof (collect_variants_post (ec_node_children or_node) None w1) as H.
  destruct (collect_variants (ec_node_children or_node) None w1) as [[failed args] w2].
  cbn [fst snd] in H. unfold collect_post in H. destruct H as (_ & _ & Hf & _).
  destruct failed; cbn [snd]; [rewrite fault_free_args | cbn [fault printf];
    rewrite fault_free_args]; cbn [fault printf fprintf_stderr]; congruence.
Qed.

Lemma print_standalone_command_keeps :
  forall name cmd_node full_id w,
    ec_node_id cmd_node = Some full_id ->
    err (print_standalone_command name cmd_node 0 w) = err w /\
    live (print_standalone_command name cmd_node 0 w) = live w /\
    fault (print_standalone_command name cmd_node 0 w) = fault w /\
    oracle (print_standalone_command name cmd_node 0 w) = oracle w.
Proof.
  intros name cmd_node full_id w Hid. unfold print_standalone_command.
  rewrite Hid. cbn [Z.eqb negb]. destruct (strchr full_id SPACE); repeat split.
Qed.

(** What one call of [process_seq_node] can do to the world. *)
Lemma process_seq_node_trace :
  forall node requested_cmd found w,
    let r := process_seq_node node requested_cmd found w in
    live (snd r) = live w /\ fault (snd r) = fault w /\
    (exists text, out (snd r) = out w ++ text) /\
    ((fst (fst r) = 0 /\ err (snd r) = err w) \/
     (fst (fst r) = -1 /\ snd (fst r) = found /\
      err (snd r) = err w ++ "Error: memory allocation failed" ++ LF)).
Proof.
  intros node requested_cmd found w r. subst r.
  destruct (seq_shape_matches requested_cmd node) eqn:Hmatch.
  - destruct (proj1 (seq_shape_matches_spec _ _) Hmatch)
      as (_ & s & o & H0 & H1 & _).
    rewrite (process_seq_node_match _ _ _ _ _ _ Hmatch H0 H1). cbv zeta.
    set (w1 := printf _ w).
    pose proof (print_command_details_post requested_cmd o 0 w1) as Hd.
    pose proof (print_command_details_fault requested_cmd o 0 w1) as Hf.
    cbv zeta in Hd.
    destruct (print_command_details requested_cmd o 0 w1) as [rc w2].
    cbn [fst snd] in Hd, Hf. destruct Hd as (Hlive & Hd).
    destruct (grants _ (oracle w1)).
    + destruct Hd as (-> & He & Ho). cbn [Z.ltb Z.compare fst snd].
      split; [exact Hlive|]. split; [exact Hf|]. split.
      * eexists. rewrite Ho. subst w1. rewrite out_printf, string_app_assoc.
        reflexivity.
      * left. split; [reflexivity | exact He].
    + destruct Hd as (-> & He & Ho). cbn [Z.ltb Z.compare fst snd].
      split; [exact Hlive|]. split; [exact Hf|]. split.
      * eexists. rewrite Ho. subst w1. rewrite out_printf, string_app_assoc.
        reflexivity.
      * right. split; [reflexivity|]. split; [reflexivity | exact He].
  - rewrite (process_seq_node_no_match _ _ _ _ Hmatch). cbn [fst snd].
    split; [reflexivity|]. split; [reflexivity|]. split.
    + exists EmptyString. now rewrite string_app_nil_r.
    + left. split; reflexivity.
Qed.

(** What one call of [process_cmd_node] can do to the world. *)
Lemma process_cmd_node_trace :
  forall node requested_cmd found w,
    let r := process_cmd_node node requested_cmd found w in
    live (snd r) = live w /\ fault (snd r) = fault w /\
    (exists text, out (snd r) = out w ++ text) /\
    ((fst (fst r) = 0 /\ err (snd r) = err w) \/
     (fst (fst r) = -1 /\ snd (fst r) = found /\
      err (snd r) = err w ++ "Error: memory allocation failed" ++ LF)).
Proof.
  intros node requested_cmd found w r. subst r. unfold process_cmd_node.
  assert (Hidle : live w = live w /\ fault w = fault w /\
                  (exists text, out w = out w ++ text) /\
                  ((0 = 0 /\ err w = err w) \/
                   (0 = -1 /\ found = found /\
                    err w = err w ++ "Error: memory allocation failed" ++ LF))).
  { split; [reflexivity|]. split; [reflexivity|]. split.
    - exists EmptyString. now rewrite string_app_nil_r.
    - left. split; reflexivity. }
  destruct (ec_node_id node) as [full_id|] eqn:Hid; [|exact Hidle].
  destruct (String.eqb full_id EC_NO_ID); [exact Hidle|].
  unfold strdup.
  pose proof (out_alloc_request w) as Ho. pose proof (err_alloc_request w) as He.
  destruct (alloc_request_keeps w) as [Hl Hf].
  destruct (alloc_request w) as [ok w1]. cbn [fst snd] in *.
  destruct ok.
  - destruct (negb _).
    + cbn [fst snd]. split; [exact Hl|]. split; [exact Hf|]. split.
      * exists EmptyString. cbn. now rewrite string_app_nil_r.
      * left. split; [reflexivity | exact He].
    + cbn [fst snd].
      set (w2 := printf _ (set_live (S (live w1)) w1)).
      destruct (print_standalone_command_keeps
                  match strchr full_id SPACE with
                  | Some space => string_upto space full_id
                  | None => full_id
                  end node full_id w2 Hid) as (Ke & Kl & Kf & _).
      pose proof (print_standalone_command_out
                    match strchr full_id SPACE with
                    | Some space => string_upto space full_id
                    | None => full_id
                    end node full_id w2 Hid) as Ko.
      unfold free_block. cbn [live fault out err set_live].
      rewrite Kl, Kf, Ke, Ko. subst w2. cbn [live fault err out printf set_live].
      split; [exact Hl|]. split; [exact Hf|]. split.
      * eexists. rewrite Ho, string_app_assoc. reflexivity.
      * left. split; [reflexivity | exact He].
  - cbn [fst snd live fault out err fprintf_stderr set_errno].
    split; [exact Hl|]. split; [exact Hf|]. split.
    + exists EmptyString. now rewrite string_app_nil_r.
    + right. split; [reflexivity|]. split; [reflexivity | now rewrite He].
Qed.

(** What the loop of [print_man_page] can do to the world. *)
Lemma print_man_page_loop_trace :
  forall requested_cmd kids found w,
    let r := print_man_page_loop kids requested_cmd found w in
    live (snd r) = live w /\ fault (snd r) = fault w /\
    (exists text, out (snd r) = out w ++ text) /\
    ((fst (fst r) = None /\ err (snd r) = err w) \/
     (fst (fst r) = Some EXIT_FAILURE /\
      err (snd r) = err w ++ "Error: memory allocation failed" ++ LF)).
Proof.
  intros requested_cmd kids.
  assert (Hidle : forall (found : bool) w,
             live w = live w /\ fault w = fault w /\
             (exists text, out w = out w ++ text) /\
             ((@None Z = None /\ err w = err w) \/
              (None = Some EXIT_FAILURE /\
               err w = err w ++ "Error: memory allocation failed" ++ LF))).
  { intros _ w. split; [reflexivity|]. split; [reflexivity|]. split.
    - exists EmptyString. now rewrite string_app_nil_r.
    - left. split; reflexivity. }
  assert (Hstep : forall rest (step : Z * bool * world) found w,
             (forall found w,
                 let r := print_man_page_loop rest requested_cmd found w in
                 live (snd r) = live w /\ fault (snd r) = fault w /\
                 (exists text, out (snd r) = out w ++ text) /\
                 ((fst (fst r) = None /\ err (snd r) = err w) \/
                  (fst (fst r) = Some EXIT_FAILURE /\
                   err (snd r) = err w ++ "Error: memory allocation failed" ++ LF))) ->
             (live (snd step) = live w /\ fault (snd step) = fault w /\
              (exists text, out (snd step) = out w ++ text) /\
              ((fst (fst step) = 0 /\ err (snd step) = err w) \/
               (fst (fst step) = -1 /\ snd (fst step) = found /\
                err (snd step) = err w ++ "Error: memory allocation failed" ++ LF))) ->
             let r :=
               let '(rc, found, w) := step in
               if rc <? 0 then (Some EXIT_FAILURE, found, w)
               else if found then (None, found, w)
               else print_man_page_loop rest requested_cmd found w in
             live (snd r) = live w /\ fault (snd r) = fault w /\
             (exists text, out (snd r) = out w ++ text) /\
             ((fst (fst r) = None /\ err (snd r) = err w) \/
              (fst (fst r) = Some EXIT_FAILURE /\
               err (snd r) = err w ++ "Error: memory allocation failed" ++ LF))).
  { intros rest [[rc found1] w1] found w IH (Hl & Hf & [t Ho] & Hcase).
    cbn [fst snd] in *. cbv zeta.
    destruct Hcase as [[-> He]|(-> & _ & He)]; cbn [Z.ltb Z.compare].
    - destruct found1.
      + cbn [fst snd]. split; [exact Hl|]. split; [exact Hf|].
        split; [now exists t|]. left. split; [reflexivity | exact He].
      + specialize (IH false w1). cbv zeta in IH.
        destruct IH as (Il & If & [t2 Io] & Icase).
        split; [congruence|]. split; [congruence|]. split.
        * exists (t ++ t2). rewrite Io, Ho. apply string_app_assoc.
        * rewrite He in Icase. exact Icase.
    - cbn [fst snd]. split; [exact Hl|]. split; [exact Hf|].
      split; [now exists t|]. right. split; [reflexivity | exact He]. }
  induction kids as [|k rest IH]; intros found w.
  - apply Hidle. exact found.
  - destruct k as [node|]; [|apply IH]. cbn [print_man_page_loop].
    destruct (get_node_type node); try apply IH.
    + apply (Hstep rest (process_seq_node node requested_cmd found w) found w IH).
      apply process_seq_node_trace.
    + apply (Hstep rest (process_cmd_node node requested_cmd found w) found w IH).
      apply process_cmd_node_trace.
Qed.

(** X10: whatever the tree, the request and the answers of the allocator,
    [print_man_page] returns with as many live heap blocks as it was entered
    with, never reads the id of a node that has none as a string, and only
    ever appends to stdout. *)
Theorem print_man_page_keeps_heap :
  forall cmdlist requested_cmd w,
    let r := print_man_page cmdlist requested_cmd w in
    live (snd r) = live w /\
    fault (snd r) = fault w /\
    exists text, out (snd r) = out w ++ text.
Proof.
  intros cmdlist requested_cmd w r. subst r. unfold print_man_page.
  pose proof (print_man_page_loop_trace requested_cmd (ec_node_children cmdlist)
                false w) as H.
  cbv zeta in H.
  destruct (print_man_page_loop (ec_node_children cmdlist) requested_cmd false w)
    as [[returned found] w1].
  cbn [fst snd] in H. destruct H as (Hl & Hf & Ho & _).
  destruct returned; [cbn [snd]; auto|].
  destruct found; cbn [negb snd live fault out fprintf_stderr]; auto.
Qed.

(** X11: [print_man_page] returns EXIT_SUCCESS or EXIT_FAILURE.  On success
    stderr is untouched; on failure exactly one diagnostic line was added to
    stderr, the one for an unknown command or the one for a failed
    allocation. *)
Theorem print_man_page_status :
  forall cmdlist requested_cmd w,
    let r := print_man_page cmdlist requested_cmd w in
    (fst r = EXIT_SUCCESS /\ err (snd r) = err w) \/
    (fst r = EXIT_FAILURE /\
     (err (snd r) = err w ++ "Error: unknown command '" ++ requested_cmd ++ "'" ++ LF \/
      err (snd r) = err w ++ "Error: memory allocation failed" ++ LF)).
Proof.
  intros cmdlist requested_cmd w r. subst r. unfold print_man_page.
  pose proof (print_man_page_loop_trace requested_cmd (ec_node_children cmdlist)
                false w) as H.
  cbv zeta in H.
  destruct (print_man_page_loop (ec_node_children cmdlist) requested_cmd false w)
    as [[returned found] w1].
  cbn [fst snd] in H. destruct H as (_ & _ & _ & [[-> He]|[-> He]]).
  - destruct found; cbn [negb fst snd err fprintf_stderr].
    + left. split; [reflexivity | exact He].
    + right. split; [reflexivity|]. left. now rewrite He.
  - right. split; [reflexivity|]. right. exact He.
Qed.

Lemma never_fails_printf : forall s w, never_fails w -> never_fails (printf s w).
Proof. intros s w H. exact H. Qed.

(** An accepted Command node, with [strdup] succeeding. *)
Lemma process_cmd_node_match :
  forall node full_id requested_cmd found w,
    ec_node_id node = Some full_id ->
    cmd_shape_matches requested_cmd node = true ->
    fst (alloc_request w) = true ->
    let r := process_cmd_node node requested_cmd found w in
    fst (fst r) = 0 /\ snd (fst r) = true /\ err (snd r) = err w /\
    out (snd r)
    = out w ++
      print_man_page_header requested_cmd (ec_node_help node) ++
      ("# SYNOPSIS" ++ LF ++ LF ++
       "**" ++ requested_cmd ++ "**" ++ from_first_space full_id ++ LF ++ LF) ++
      "# SEE ALSO" ++ LF ++ LF ++ "**grcli**(1)" ++ LF.
Proof.
  intros node full_id requested_cmd found w Hid Hmatch Halloc r. subst r.
  unfold cmd_shape_matches in Hmatch. rewrite Hid in Hmatch.
  apply andb_true_iff in Hmatch. destruct Hmatch as [Hreal Hname].
  apply negb_true_iff in Hreal. pose proof Hname as Heq.
  apply String.eqb_eq in Heq.
  unfold process_cmd_node. rewrite Hid, Hreal. unfold strdup.
  pose proof (out_alloc_request w) as Ho. pose proof (err_alloc_request w) as He.
  destruct (alloc_request w) as [ok w1]. cbn [fst snd] in *. subst ok.
  rewrite truncated_copy, Hname. cbn [negb fst snd].
  set (w2 := printf _ (set_live (S (live w1)) w1)).
  destruct (print_standalone_command_keeps (upto_first_space full_id) node full_id w2 Hid)
    as (Ke & _).
  pose proof (print_standalone_command_out (upto_first_space full_id) node full_id w2 Hid)
    as Ko.
  unfold free_block. cbn [out err set_live]. rewrite Ke, Ko. subst w2.
  cbn [err out printf set_live]. rewrite Ho, Heq.
  split; [reflexivity|]. split; [reflexivity|]. split; [exact He|].
  now rewrite !string_app_assoc.
Qed.

Lemma print_man_page_loop_found :
  forall requested_cmd kids w,
    never_fails w ->
    let r := print_man_page_loop kids requested_cmd false w in
    fst (fst r) = None /\
    (snd (fst r) = true <->
     exists node, In (Some node) kids /\ child_matches requested_cmd node = true).
Proof.
  intros requested_cmd kids.
  induction kids as [|k rest IH]; intros w Hw r; subst r.
  - cbn [print_man_page_loop fst snd]. split; [reflexivity|].
    split; [discriminate | intros (node & [] & _)].
  - assert (Hskip : forall w1 node,
               k = Some node -> never_fails w1 ->
               child_matches requested_cmd node = false ->
               fst (fst (print_man_page_loop rest requested_cmd false w1)) = None /\
               (snd (fst (print_man_page_loop rest requested_cmd false w1)) = true <->
                exists n, In (Some n) (k :: rest) /\ child_matches requested_cmd n = true)).
    { intros w1 node -> Hw1 Hno. destruct (IH w1 Hw1) as [I1 I2].
      split; [exact I1|]. rewrite I2. split.
      - intros (n & Hin & Hn). exists n. split; [now right | exact Hn].
      - intros (n & [Hin|Hin] & Hn).
        + injection Hin as <-. congruence.
        + now exists n. }
    destruct k as [node|].
    + cbn [print_man_page_loop]. unfold child_matches in Hskip.
      destruct (get_node_type node) eqn:Htype;
        try (apply (Hskip w node eq_refl Hw); now rewrite Htype).
      * destruct (seq_shape_matches requested_cmd node) eqn:Hmatch.
        -- destruct (proj1 (seq_shape_matches_spec _ _) Hmatch)
             as (_ & s & o & H0 & H1 & _).
           rewrite (process_seq_node_match _ _ _ _ _ _ Hmatch H0 H1). cbv zeta.
           set (w1 := printf _ w).
           pose proof (print_command_details_post requested_cmd o 0 w1) as Hd.
           cbv zeta in Hd. rewrite never_fails_grants in Hd by exact Hw.
           destruct (print_command_details requested_cmd o 0 w1) as [rc w2].
           cbn [fst snd] in Hd. destruct Hd as (_ & -> & _).
           cbn [Z.ltb Z.compare fst snd]. split; [reflexivity|].
           split; [intros _|reflexivity]. exists node.
           split; [now left|]. unfold child_matches. now rewrite Htype.
        -- rewrite (process_seq_node_no_match _ _ _ _ Hmatch).
           cbn [Z.ltb Z.compare]. apply (Hskip w node eq_refl Hw).
           now rewrite Htype.
      * destruct (cmd_shape_matches requested_cmd node) eqn:Hmatch.
        -- assert (Hid : exists full_id, ec_node_id node = Some full_id).
           { unfold cmd_shape_matches in Hmatch.
             destruct (ec_node_id node) as [i|]; [now exists i | discriminate]. }
           destruct Hid as [full_id Hid].
           destruct (never_fails_alloc_request w Hw) as [Halloc _].
           pose proof (process_cmd_node_match node full_id requested_cmd false w
                         Hid Hmatch Halloc) as Hc.
           cbv zeta in Hc.
           destruct (process_cmd_node node requested_cmd false w) as [[rc found1] w1].
           cbn [fst snd] in Hc. destruct Hc as (-> & -> & _).
           cbn [Z.ltb Z.compare fst snd]. split; [reflexivity|].
           split; [intros _|reflexivity]. exists node.
           split; [now left|]. unfold child_matches. now rewrite Htype.
        -- pose proof (process_cmd_node_no_match node requested_cmd false w Hmatch)
             as Hc.
           cbv zeta in Hc.
           destruct (process_cmd_node node requested_cmd false w) as [[rc found1] w1].
           cbn [fst snd] in Hc. destruct Hc as (-> & _ & _ & Hn).
           destruct (Hn Hw) as (-> & _ & Hw1). cbn [Z.ltb Z.compare].
           apply (Hskip w1 node eq_refl Hw1). now rewrite Htype.
    + cbn [print_man_page_loop]. destruct (IH w Hw) as [I1 I2].
      split; [exact I1|]. rewrite I2. split.
      * intros (n & Hin & Hn). exists n. split; [now right | exact Hn].
      * intros (n & [Hin|Hin] & Hn); [discriminate Hin | now exists n].
Qed.

(** X12: when no allocation fails, [print_man_page] succeeds iff some
    top-level child is accepted for the requested name, as a Sequence or as a
    Command; it fails with the unknown-command status otherwise. *)
Theorem print_man_page_succeeds_iff :
  forall cmdlist requested_cmd w,
    never_fails w ->
    (fst (print_man_page cmdlist requested_cmd w) = EXIT_SUCCESS
     <-> exists node,
          In (Some node) (ec_node_children cmdlist) /\
          child_matches requested_cmd node = true) /\
    (fst (print_man_page cmdlist requested_cmd w) = EXIT_FAILURE
     <-> forall node,
          In (Some node) (ec_node_children cmdlist) ->
          child_matches requested_cmd node = false).
Proof.
  intros cmdlist requested_cmd w Hw. unfold print_man_page.
  pose proof (print_man_page_loop_found requested_cmd (ec_node_children cmdlist) w Hw)
    as H.
  cbv zeta in H.
  destruct (print_man_page_loop (ec_node_children cmdlist) requested_cmd false w)
    as [[returned found] w1].
  cbn [fst snd] in H. destruct H as (-> & Hfound).
  destruct found; cbn [negb fst].
  - destruct (proj1 Hfound eq_refl) as (node & Hin & Hnode). split.
    + split; [intros _; now exists node | reflexivity].
    + split; [discriminate|]. intro Hall. rewrite (Hall node Hin) in Hnode.
      discriminate Hnode.
  - split.
    + split; [discriminate|]. intro Hex. apply Hfound in Hex. discriminate Hex.
    + split; [|reflexivity]. intros _ node Hin.
      destruct (child_matches requested_cmd node) eqn:E; [|reflexivity].
      assert (Hex : false = true) by (apply Hfound; now exists node).
      discriminate Hex.
Qed.

(** X13: when the first accepted top-level child is a Command node and no
    allocation fails, the page printed is the page of that node: the header
    with the help of the node, the one-line SYNOPSIS with the requested name
    in bold and the rest of the id, and the reference to the page of the
    shell. *)
Theorem command_shape_resolution :
  forall cmdlist before node after full_id requested_cmd w,
    ec_node_children cmdlist = (before ++ Some node :: after)%list ->
    (forall m, In (Some m) before -> child_matches requested_cmd m = false) ->
    get_node_type node = NODE_TYPE_CMD ->
    ec_node_id node = Some full_id ->
    cmd_shape_matches requested_cmd node = true ->
    never_fails w ->
    let r := print_man_page cmdlist requested_cmd w in
    fst r = EXIT_SUCCESS /\
    err (snd r) = err w /\
    out (snd r)
    = out w ++
      print_man_page_header requested_cmd (ec_node_help node) ++
      ("# SYNOPSIS" ++ LF ++ LF ++
       "**" ++ requested_cmd ++ "**" ++ from_first_space full_id ++ LF ++ LF) ++
      "# SEE ALSO" ++ LF ++ LF ++ "**grcli**(1)" ++ LF.
Proof.
  intros cmdlist before node after full_id requested_cmd w Hkids Hbefore Htype Hid
    Hmatch Hw r.
  subst r. unfold print_man_page. rewrite Hkids.
  destruct (print_man_page_loop_skip requested_cmd before (Some node :: after) w
              Hbefore Hw) as (w1 & -> & Ho & He & Hw1).
  cbn [print_man_page_loop]. rewrite Htype.
  destruct (never_fails_alloc_request w1 Hw1) as [Halloc _].
  pose proof (process_cmd_node_match node full_id requested_cmd false w1
                Hid Hmatch Halloc) as Hc.
  cbv zeta in Hc.
  destruct (process_cmd_node node requested_cmd false w1) as [[rc found1] w2].
  cbn [fst snd] in Hc. destruct Hc as (-> & -> & He2 & Ho2).
  cbn [Z.ltb Z.compare negb fst snd].
  split; [reflexivity|]. split; [congruence|]. now rewrite Ho2, Ho.
Qed.

Lemma print_man_page_loop_filter :
  forall requested_cmd kids found w,
    print_man_page_loop (filter resolver_looks_at kids) requested_cmd found w
    = print_man_page_loop kids requested_cmd found w.
Proof.
  intros requested_cmd kids.
  induction kids as [|k rest IH]; intros found w; [reflexivity|].
  cbn [filter]. destruct k as [node|]; cbn [resolver_looks_at]; [|apply IH].
  destruct (get_node_type node) eqn:Htype;
    cbn [print_man_page_loop]; rewrite ?Htype; try apply IH.
  - destruct (process_seq_node node requested_cmd found w) as [[rc f1] w1].
    destruct (rc <? 0); [reflexivity|]. destruct f1; [reflexivity | apply IH].
  - destruct (process_cmd_node node requested_cmd found w) as [[rc f1] w1].
    destruct (rc <? 0); [reflexivity|]. destruct f1; [reflexivity | apply IH].
Qed.

(** X14: top-level children that are neither Sequence nor Command nodes, and
    children whose lookup fails, have no part in the resolution: removing
    them from the list changes neither the status nor anything printed. *)
Theorem print_man_page_skips_other_types :
  forall type id help desc kids requested_cmd w,
    print_man_page (Node type id help desc (filter resolver_looks_at kids)) requested_cmd w
    = print_man_page (Node type id help desc kids) requested_cmd w.
Proof.
  intros. unfold print_man_page. cbn [ec_node_children].
  now rewrite print_man_page_loop_filter.
Qed.

(** ** Further properties: the argument collector *)

Lemma qualifies_spec :
  forall n,
    qualifies n = true <->
    exists i, ec_node_id n = Some i /\ i <> EC_NO_ID /\
              is_argument_type (get_node_type n) = true.
Proof.
  intro n. unfold qualifies, has_real_id. rewrite andb_true_iff. split.
  - intros [Hid Htype]. destruct (ec_node_id n) as [i|]; [|discriminate].
    exists i. apply negb_true_iff, String.eqb_neq in Hid. auto.
  - intros (i & -> & Hreal & Htype). apply String.eqb_neq in Hreal.
    now rewrite Hreal.
Qed.

Lemma find_arg_true :
  forall acc i, find_arg acc i = true <-> In i (map arg_id acc).
Proof.
  intros acc i. destruct (find_arg acc i) eqn:E.
  - split; [intros _|reflexivity].
    destruct (in_dec string_dec i (map arg_id acc)) as [Hin|Hnot]; [exact Hin|].
    apply find_arg_false in Hnot. congruence.
  - apply find_arg_false in E. split; [discriminate | contradiction].
Qed.

Lemma visit_cases :
  forall acc n,
    visit acc n = acc \/
    exists i, ec_node_id n = Some i /\ qualifies n = true /\
              find_arg acc i = false /\
              visit acc n = (acc ++ [ArgEntry i n])%list.
Proof.
  intros acc n. unfold visit. destruct (ec_node_id n) as [i|] eqn:Hid; [|now left].
  destruct (qualifies n) eqn:Hq; [|now left].
  destruct (find_arg acc i) eqn:Hf; [now left|].
  right. exists i. auto.
Qed.

(** A walk only appends, and what it appends are qualifying nodes of the
    walk under their own ids. *)
Lemma fold_visit_appends :
  forall nodes acc,
    exists added,
      fold_left visit nodes acc = (acc ++ added)%list /\
      forall e, In e added ->
        In (arg_node e) nodes /\
        ec_node_id (arg_node e) = Some (arg_id e) /\
        qualifies (arg_node e) = true.
Proof.
  induction nodes as [|n rest IH]; intro acc; simpl.
  - exists []. split; [now rewrite app_nil_r | intros e []].
  - destruct (IH (visit acc n)) as (added & Heq & Hadded).
    destruct (visit_cases acc n) as [Hv|(i & Hid & Hq & _ & Hv)]; rewrite Hv in Heq |- *.
    + exists added. split; [exact Heq|]. intros e He.
      destruct (Hadded e He) as (H1 & H2 & H3). auto.
    + exists (ArgEntry i n :: added). split; [now rewrite Heq, <- app_assoc|].
      intros e [<-|He]; [simpl; auto|].
      destruct (Hadded e He) as (H1 & H2 & H3). auto.
Qed.

Lemma fold_visit_keeps_ids :
  forall nodes acc i,
    In i (map arg_id acc) -> In i (map arg_id (fold_left visit nodes acc)).
Proof.
  intros nodes acc i H. destruct (fold_visit_appends nodes acc) as (added & -> & _).
  rewrite map_app. apply in_or_app. now left.
Qed.

Lemma fold_visit_complete :
  forall nodes acc n,
    In n nodes -> qualifies n = true ->
    exists i, ec_node_id n = Some i /\ In i (map arg_id (fold_left visit nodes acc)).
Proof.
  induction nodes as [|a rest IH]; intros acc n Hin Hq; [contradiction|].
  destruct Hin as [->|Hin]; simpl; [|now apply IH].
  destruct (proj1 (qualifies_spec n) Hq) as (i & Hid & _).
  exists i. split; [exact Hid|]. apply fold_visit_keeps_ids.
  destruct (visit_cases acc n) as [Hv|(j & Hj & _ & _ & Hv)]; rewrite Hv.
  - unfold visit in Hv. rewrite Hid, Hq in Hv. simpl in Hv.
    destruct (find_arg acc i) eqn:Hf; [now apply find_arg_true|].
    simpl in Hv. exfalso. apply (f_equal (@List.length _)) in Hv.
    rewrite length_app in Hv. simpl in Hv. lia.
  - rewrite Hid in Hj. injection Hj as <-. rewrite map_app. apply in_or_app.
    right. now left.
Qed.

Lemma fold_visit_fixed :
  forall nodes acc,
    (forall n i, In n nodes -> qualifies n = true -> ec_node_id n = Some i ->
                 In i (map arg_id acc)) ->
    fold_left visit nodes acc = acc.
Proof.
  induction nodes as [|a rest IH]; intros acc H; simpl; [reflexivity|].
  assert (Hv : visit acc a = acc).
  { destruct (visit_cases acc a) as [Hv|(i & Hid & Hq & Hf & _)]; [exact Hv|].
    assert (Hin : In i (map arg_id acc)) by (apply (H a i); auto; now left).
    apply find_arg_true in Hin. congruence. }
  rewrite Hv. apply IH. intros n i Hin. apply H. now right.
Qed.

Lemma fold_visit_idempotent :
  forall nodes acc,
    fold_left visit nodes (fold_left visit nodes acc) = fold_left visit nodes acc.
Proof.
  intros nodes acc. apply fold_visit_fixed. intros n i Hin Hq Hid.
  destruct (fold_visit_complete nodes acc n Hin Hq) as (j & Hj & Hjin).
  rewrite Hid in Hj. now injection Hj as <-.
Qed.

Lemma never_fails_skipn :
  forall w w' n, never_fails w -> oracle w' = skipn n (oracle w) -> never_fails w'.
Proof.
  unfold never_fails. intros w w' n H ->. rewrite Forall_forall in *.
  intros b Hb. apply H. revert Hb. generalize (oracle w). clear.
  induction n as [|n IH]; intros l Hb; [exact Hb|].
  destruct l as [|a l]; [contradiction|]. right. now apply IH.
Qed.

(** X15: when no allocation fails, every entry the collector returns is
    either one it was handed or a node of the subtree filed under its own
    id, and that id is a real one and the node of an argument type: no entry
    ever carries the sentinel or a missing id. *)
Theorem collected_entries_wellformed :
  forall node args w,
    never_fails w ->
    forall e,
      In e (vec_entries (snd (fst (collect_arguments node args w)))) ->
      In e (vec_entries args) \/
      (In (arg_node e) (preorder node) /\
       ec_node_id (arg_node e) = Some (arg_id e) /\
       arg_id e <> EC_NO_ID /\
       is_argument_type (get_node_type (arg_node e)) = true).
Proof.
  intros node args w Hw e He.
  pose proof (collect_arguments_post node args w) as H.
  destruct (collect_arguments node args w) as [[rc a1] w1]. cbn [fst snd] in He.
  unfold collect_post in H. destruct H as (_ & _ & _ & _ & H).
  rewrite (never_fails_grants w _ Hw) in H. destruct H as (_ & Hent & _).
  rewrite Hent in He.
  destruct (fold_visit_appends (preorder node) (vec_entries args))
    as (added & Heq & Hadded).
  rewrite Heq in He. apply in_app_or in He. destruct He as [He|He]; [now left|].
  right. destruct (Hadded e He) as (H1 & H2 & H3).
  destruct (proj1 (qualifies_spec _) H3) as (i & Hi & Hreal & Htype).
  rewrite H2 in Hi. injection Hi as <-. auto.
Qed.

(** X16: when no allocation fails, no argument of the subtree is lost: the
    id of every node with a real id and an argument type is the id of some
    entry of the result. *)
Theorem collected_entries_complete :
  forall node args w,
    never_fails w ->
    forall n i,
      In n (preorder node) ->
      ec_node_id n = Some i -> i <> EC_NO_ID ->
      is_argument_type (get_node_type n) = true ->
      In i (map arg_id (vec_entries (snd (fst (collect_arguments node args w))))).
Proof.
  intros node args w Hw n i Hin Hid Hreal Htype.
  pose proof (collect_arguments_post node args w) as H.
  destruct (collect_arguments node args w) as [[rc a1] w1]. cbn [fst snd].
  unfold collect_post in H. destruct H as (_ & _ & _ & _ & H).
  rewrite (never_fails_grants w _ Hw) in H. destruct H as (_ & -> & _).
  assert (Hq : qualifies n = true) by (apply qualifies_spec; exists i; auto).
  destruct (fold_visit_complete (preorder node) (vec_entries args) n Hin Hq)
    as (j & Hj & Hjin).
  rewrite Hid in Hj. now injection Hj as <-.
Qed.

(** X17: collecting a subtree a second time, into the entries of the first
    collection, adds nothing and asks the allocator for nothing. *)
Theorem collect_arguments_twice :
  forall node args w,
    never_fails w ->
    let first := collect_arguments node args w in
    let second := collect_arguments node (snd (fst first)) (snd first) in
    fst (fst second) = 0 /\
    vec_entries (snd (fst second)) = vec_entries (snd (fst first)) /\
    oracle (snd second) = oracle (snd first).
Proof.
  intros node args w Hw first second. subst second first.
  pose proof (collect_arguments_post node args w) as H.
  destruct (collect_arguments node args w) as [[rc a1] w1]. cbn [fst snd].
  unfold collect_post in H. destruct H as (_ & _ & _ & _ & H).
  rewrite (never_fails_grants w _ Hw) in H. destruct H as (_ & Hent & Hor).
  assert (Hw1 : never_fails w1) by (eapply never_fails_skipn; eauto).
  pose proof (collect_arguments_post node a1 w1) as H2.
  destruct (collect_arguments node a1 w1) as [[rc2 a2] w2]. cbn [fst snd].
  unfold collect_post in H2. destruct H2 as (_ & _ & _ & _ & H2).
  rewrite (never_fails_grants w1 _ Hw1) in H2. destruct H2 as (-> & Hent2 & Hor2).
  assert (Hfix : fold_left visit (preorder node) (vec_entries a1) = vec_entries a1)
    by (rewrite Hent; apply fold_visit_idempotent).
  split; [reflexivity|]. split; [congruence|].
  rewrite Hor2. unfold allocations_needed. rewrite Hfix, Nat.sub_diag. reflexivity.
Qed.

(** X18: a collection whose allocation requests are all granted only
    appends to the entries it was handed, and asks the allocator exactly
    once for each entry it appends. *)
Theorem collect_arguments_appends :
  forall node args w,
    grants (allocations_needed (preorder node) (vec_entries args)) (oracle w) = true ->
    exists added,
      vec_entries (snd (fst (collect_arguments node args w)))
      = (vec_entries args ++ added)%list /\
      oracle (snd (collect_arguments node args w))
      = skipn (List.length added) (oracle w) /\
      (live (snd (collect_arguments node args w)) + blocks args
       = live w + blocks (snd (fst (collect_arguments node args w))))%nat.
Proof.
  intros node args w Hg.
  pose proof (collect_arguments_post node args w) as H.
  destruct (collect_arguments node args w) as [[rc a1] w1]. cbn [fst snd].
  unfold collect_post in H. destruct H as (_ & _ & _ & Hl & H).
  rewrite Hg in H. destruct H as (_ & Hent & Hor).
  destruct (fold_visit_appends (preorder node) (vec_entries args))
    as (added & Heq & _).
  exists added. split; [congruence|]. split; [|exact Hl].
  rewrite Hor. unfold allocations_needed. rewrite Heq, length_app. f_equal. lia.
Qed.

(** ** Further properties: ids, lookups and sections *)

Lemma upto_first_space_no_space_left :
  forall s, count_char SPACE (upto_first_space s) = 0%nat.
Proof.
  induction s as [|c rest IH]; simpl; [reflexivity|].
  destruct (Ascii.eqb c SPACE) eqn:E; simpl; [reflexivity|]. now rewrite E, IH.
Qed.

Lemma upto_from_first_space :
  forall s, upto_first_space s ++ from_first_space s = s.
Proof.
  induction s as [|c rest IH]; simpl; [reflexivity|].
  destruct (Ascii.eqb c SPACE); simpl; [reflexivity|]. now rewrite IH.
Qed.

Lemma strchr_none_count :
  forall s c, strchr s c = None <-> count_char c s = 0%nat.
Proof.
  induction s as [|a rest IH]; intro c; simpl; [split; reflexivity|].
  destruct (Ascii.eqb a c).
  - split; [discriminate | intro H; simpl in H; lia].
  - simpl. rewrite <- IH. destruct (strchr rest c); split; congruence.
Qed.

Lemma strchr_some_get :
  forall s c k, strchr s c = Some k -> get k s = Some c.
Proof.
  induction s as [|a rest IH]; intros c k H; simpl in H; [discriminate|].
  destruct (Ascii.eqb_spec a c) as [->|Hne].
  - injection H as <-. reflexivity.
  - destruct (strchr rest c) as [j|] eqn:E; [|discriminate].
    injection H as <-. simpl. now apply IH.
Qed.

(** X19: the split of a command id at its first space loses nothing.  When
    [strchr] finds a space at offset [k], the [k] characters before it hold
    no space, the character at [k] is the space, and the part before
    followed by the part from [k] on is the id again; [strchr] finds no
    space iff the id holds none. *)
Theorem command_id_split :
  forall full_cmd,
    (forall space,
        strchr full_cmd SPACE = Some space ->
        string_upto space full_cmd ++ string_from space full_cmd = full_cmd /\
        count_char SPACE (string_upto space full_cmd) = 0%nat /\
        get space full_cmd = Some SPACE) /\
    (strchr full_cmd SPACE = None <-> count_char SPACE full_cmd = 0%nat).
Proof.
  intro full_cmd. split; [|apply strchr_none_count].
  intros space H.
  rewrite (string_upto_strchr _ _ H), (string_from_strchr _ _ H).
  split; [apply upto_from_first_space|].
  split; [apply upto_first_space_no_space_left | now apply strchr_some_get].
Qed.

(** X20: a requested name that holds a space is never accepted for a Command
    node, whatever the id of the node: the name it is compared with was cut
    at the first space. *)
Theorem request_with_space_matches_no_command :
  forall node requested_cmd found w,
    (0 < count_char SPACE requested_cmd)%nat ->
    snd (fst (process_cmd_node node requested_cmd found w)) = found.
Proof.
  intros node requested_cmd found w Hspace.
  assert (Hno : cmd_shape_matches requested_cmd node = false).
  { unfold cmd_shape_matches. destruct (ec_node_id node) as [full_id|]; [|reflexivity].
    destruct (String.eqb_spec (upto_first_space full_id) requested_cmd) as [E|E];
      [|apply andb_false_r].
    rewrite <- E, upto_first_space_no_space_left in Hspace. lia. }
  apply (process_cmd_node_no_match node requested_cmd found w Hno).
Qed.

Lemma get_command_help_loop_spec :
  forall kids,
    match get_command_help_loop kids with
    | Some h =>
        exists before child after,
          present_children kids = (before ++ child :: after)%list /\
          ec_node_help child = Some h /\
          Forall (fun c => ec_node_help c = None) before
    | None => Forall (fun c => ec_node_help c = None) (present_children kids)
    end.
Proof.
  induction kids as [|k rest IH]; simpl; [constructor|].
  destruct k as [cmd_node|]; [|exact IH].
  destruct (ec_node_help cmd_node) as [h|] eqn:Hh.
  - exists [], cmd_node, (present_children rest). repeat split; auto.
  - destruct (get_command_help_loop rest) as [h|].
    + destruct IH as (before & child & after & Heq & Hc & Hb).
      exists (cmd_node :: before), child, after. simpl. rewrite Heq.
      repeat split; auto.
    + now constructor.
Qed.

(** X21: the help of a command is the help of the first variant that has
    one, among the variants that can be retrieved; there is none iff no
    retrievable variant has help. *)
Theorem get_command_help_first :
  forall or_node,
    match get_command_help or_node with
    | Some h =>
        exists before child after,
          present_children (ec_node_children or_node) = (before ++ child :: after)%list /\
          ec_node_help child = Some h /\
          Forall (fun c => ec_node_help c = None) before
    | None =>
        Forall (fun c => ec_node_help c = None)
          (present_children (ec_node_children or_node))
    end.
Proof.
  intro or_node. apply get_command_help_loop_spec.
Qed.

Lemma existsb_same_ids :
  forall (p : string -> bool) (l1 l2 : list arg_entry),
    (forall i, In i (map arg_id l1) <-> In i (map arg_id l2)) ->
    existsb (fun e => p (arg_id e)) l1 = existsb (fun e => p (arg_id e)) l2.
Proof.
  intros p l1 l2 H.
  assert (Hdir : forall a b : list arg_entry,
             (forall i, In i (map arg_id a) -> In i (map arg_id b)) ->
             existsb (fun e => p (arg_id e)) a = true ->
             existsb (fun e => p (arg_id e)) b = true).
  { intros a b Hab Ha. apply existsb_exists in Ha. destruct Ha as (e & He & Hp).
    assert (Hin : In (arg_id e) (map arg_id b)) by (apply Hab; now apply in_map).
    apply in_map_iff in Hin. destruct Hin as (e' & Heq & He').
    apply existsb_exists. exists e'. split; [exact He' | now rewrite Heq]. }
  destruct (existsb (fun e => p (arg_id e)) l1) eqn:E1;
    destruct (existsb (fun e => p (arg_id e)) l2) eqn:E2; try reflexivity.
  - rewrite (Hdir l1 l2) in E2; [discriminate | intros i; apply H | exact E1].
  - rewrite (Hdir l2 l1) in E1; [discriminate | intros i; apply H | exact E2].
Qed.

(** X22: the cross-reference flags depend on the set of collected ids only:
    neither the order of the entries, nor repetitions, nor the nodes behind
    the ids change them. *)
Theorem classify_arguments_ids :
  forall l1 l2,
    (forall i, In i (map arg_id l1) <-> In i (map arg_id l2)) ->
    classify_arguments l1 = classify_arguments l2.
Proof.
  intros l1 l2 H.
  destruct (classify_fold_flags l1 (XrefFlags false false false false))
    as (A1 & A2 & A3 & A4).
  destruct (classify_fold_flags l2 (XrefFlags false false false false))
    as (B1 & B2 & B3 & B4).
  fold (classify_arguments l1) in A1, A2, A3, A4.
  fold (classify_arguments l2) in B1, B2, B3, B4.
  simpl in A1, A2, A3, A4, B1, B2, B3, B4.
  rewrite (existsb_same_ids
             (fun i => (String.eqb i "IFACE" || String.eqb i "NAME")%bool) l1 l2 H)
    in A1.
  rewrite (existsb_same_ids (fun i => String.eqb i "VRF") l1 l2 H) in A2.
  rewrite (existsb_same_ids
             (fun i => (String.eqb i "NH" || String.eqb i "NH_ID"
                        || String.eqb i "SEGLIST")%bool) l1 l2 H) in A3.
  rewrite (existsb_same_ids
             (fun i => (String.eqb i "ADDR" || String.eqb i "IP"
                        || String.eqb i "DEST")%bool) l1 l2 H) in A4.
  destruct (classify_arguments l1), (classify_arguments l2). simpl in *.
  congruence.
Qed.

Lemma is_valid_type_in :
  forall type types, is_valid_type type types = true <-> In type types.
Proof.
  intros type types. induction types as [|t rest IH]; simpl.
  - split; [discriminate | intros []].
  - destruct (String.eqb_spec type t) as [E|E].
    + split; [intros _; now left | reflexivity].
    + rewrite IH. split; [now right | intros [K|K]; [congruence | exact K]].
Qed.

(** X23: the two linear searches of the collector are membership tests:
    [find_arg] answers 1 iff the id is the id of one of the entries, and
    [is_valid_type] answers true iff the type name is in the table; on an
    empty vector or an empty table both answer no. *)
Theorem collector_searches :
  forall (args : list arg_entry) (id type : string) (types : list string),
    (find_arg args id = true <-> In id (map arg_id args)) /\
    (is_valid_type type types = true <-> In type types) /\
    find_arg [] id = false /\
    is_valid_type type [] = false.
Proof.
  intros args id type types.
  split; [apply find_arg_true|]. split; [apply is_valid_type_in|].
  split; reflexivity.
Qed.

Lemma print_argument_help_documented :
  forall e,
    ec_node_id (arg_node e) = Some (arg_id e) ->
    is_argument_type (get_node_type (arg_node e)) = true ->
    print_argument_help (arg_node e) = documented_argument e.
Proof.
  intros e Hid Htype. unfold print_argument_help, documented_argument.
  rewrite Hid. destruct (ec_node_help (arg_node e)); [reflexivity|].
  destruct (get_node_type (arg_node e)); try reflexivity; discriminate Htype.
Qed.

Lemma print_arguments_help_documented :
  forall entries,
    (forall e, In e entries ->
               ec_node_id (arg_node e) = Some (arg_id e) /\
               is_argument_type (get_node_type (arg_node e)) = true) ->
    print_arguments_help entries = concat_strings (map documented_argument entries).
Proof.
  induction entries as [|e rest IH]; intro H; [reflexivity|].
  change (print_argument_help (arg_node e) ++ print_arguments_help rest
          = documented_argument e ++ concat_strings (map documented_argument rest)).
  destruct (H e (or_introl eq_refl)) as [Hid Htype].
  rewrite (print_argument_help_documented e Hid Htype), IH; [reflexivity|].
  intros e' He'. apply H. now right.
Qed.

(** X24: when no allocation of the collection is refused, the ARGUMENTS
    section of [print_command_details] is, after its heading, one entry for
    each argument collected over all the variants, in collection order: the
    heading with the id, then the help of the node or the sentence of its
    type.  No id is documented twice, every entry stands under the real id
    of its node, and the id of every argument node of every variant is among
    them.  The SEE ALSO section follows. *)
Theorem arguments_section :
  forall ctx_name or_node with_header w,
    let entries := collected_variants (ec_node_children or_node) [] in
    grants (List.length entries) (oracle w) = true ->
    out (snd (print_command_details ctx_name or_node with_header w))
    = out w ++
      details_prologue ctx_name or_node with_header ++
      concat_strings (map documented_argument entries) ++
      print_see_also ctx_name (classify_arguments entries)
    /\ NoDup (map arg_id entries)
    /\ (forall e, In e entries ->
                  ec_node_id (arg_node e) = Some (arg_id e) /\
                  arg_id e <> EC_NO_ID /\
                  is_argument_type (get_node_type (arg_node e)) = true)
    /\ (forall child n i,
           In (Some child) (ec_node_children or_node) ->
           In n (preorder child) ->
           ec_node_id n = Some i -> i <> EC_NO_ID ->
           is_argument_type (get_node_type n) = true ->
           In i (map arg_id entries)).
Proof.
  intros ctx_name or_node with_header w entries Hg.
  assert (Hwf : forall e, In e entries ->
                          ec_node_id (arg_node e) = Some (arg_id e) /\
                          arg_id e <> EC_NO_ID /\
                          is_argument_type (get_node_type (arg_node e)) = true).
  { intros e He. unfold entries, collected_variants in He.
    destruct (fold_visit_appends
                (preorder_children preorder (ec_node_children or_node)) [])
      as (added & Heq & Hadded).
    rewrite Heq in He. simpl in He. destruct (Hadded e He) as (_ & H2 & H3).
    destruct (proj1 (qualifies_spec _) H3) as (i & Hi & Hreal & Htype).
    rewrite H2 in Hi. injection Hi as <-. auto. }
  split; [|split; [|split; [exact Hwf|]]].
  - pose proof (print_command_details_post ctx_name or_node with_header w) as Hd.
    cbv zeta in Hd. unfold allocations_needed in Hd.
    fold (collected_variants (ec_node_children or_node) []) in Hd.
    fold entries in Hd. cbn [List.length] in Hd. rewrite Nat.sub_0_r, Hg in Hd.
    destruct Hd as (_ & _ & _ & ->). unfold command_details_text. fold entries.
    rewrite (print_arguments_help_documented entries); [reflexivity|].
    intros e He. destruct (Hwf e He) as (H1 & _ & H3). auto.
  - apply fold_visit_nodup. constructor.
  - intros child n i Hchild Hn Hid Hreal Htype.
    assert (Hq : qualifies n = true) by (apply qualifies_spec; exists i; auto).
    assert (Hin : In n (preorder_children preorder (ec_node_children or_node)))
      by (eapply preorder_children_in; eauto).
    destruct (fold_visit_complete _ [] n Hin Hq) as (j & Hj & Hjin).
    rewrite Hid in Hj. now injection Hj as <-.
Qed.

(** X25: the page of the shell lists the options of the tree twice, in tree
    order both times: one synopsis line per retrievable option, then one
    entry per retrievable option.  Around the two lists the page is fixed
    text under a title cut to 127 characters, and the function returns 0
    whatever the tree. *)
Theorem print_main_man_page_sections :
  exists title before after,
    String.length title
    = Nat.min 127
        (String.length ("GRCLI 1 " ++ DQUOTE ++ "grout " ++ GROUT_VERSION ++ DQUOTE)) /\
    forall options_tree,
      let options := present_children (ec_node_children options_tree) in
      fst (print_main_man_page options_tree) = 0 /\
      snd (print_main_man_page options_tree)
      = title ++ LF ++ man_print_title_underline title ++ before ++
        print_cli_options_from_tree options_tree ++ after /\
      print_cli_options_from_tree options_tree
      = "# SYNOPSIS" ++ LF ++ LF ++ "**grcli**" ++ LF ++
        concat_strings
          (map (fun opt_node => print_option_syntax opt_node SYNOPSIS_MODE) options) ++
        "..." ++ LF ++ LF ++
        "# OPTIONS" ++ LF ++ LF ++
        concat_strings
          (map (fun opt_node => print_option_syntax opt_node OPTION_MODE) options).
Proof.
  exists (string_upto 127 ("GRCLI 1 " ++ DQUOTE ++ "grout " ++ GROUT_VERSION ++ DQUOTE)).
  exists ("# NAME" ++ LF ++ LF ++ "**grcli** -- grout command line interface" ++ LF ++ LF).
  eexists. split; [apply substring_prefix_length|].
  intros options_tree options. split; [reflexivity|]. split.
  - unfold print_main_man_page. cbn [snd].
    rewrite !string_app_assoc. reflexivity.
  - unfold print_cli_options_from_tree, options.
    now rewrite !for_children_concat.
Qed.

(** X26: the help printed for a collected entry is its heading, with the id
    it was filed under, followed by the help of its node or, without one, by
    the sentence of its type: an unsigned integer, an integer or a dynamic
    value; a Regex without help gets the heading alone.  The sentence for
    strings is never printed for a collected entry. *)
Theorem collected_argument_help :
  forall kids e,
    In e (collected_variants kids []) ->
    print_argument_help (arg_node e)
    = "#### _" ++ arg_id e ++ "_" ++ LF ++ LF ++
      match ec_node_help (arg_node e) with
      | Some help => help ++ LF ++ LF
      | None =>
          match get_node_type (arg_node e) with
          | NODE_TYPE_UINT => "Unsigned integer." ++ LF ++ LF
          | NODE_TYPE_INT => "Integer." ++ LF ++ LF
          | NODE_TYPE_DYN => "Dynamic value." ++ LF ++ LF
          | _ => EmptyString
          end
      end
    /\ get_node_type (arg_node e) <> NODE_TYPE_STR.
Proof.
  intros kids e He. unfold collected_variants in He.
  destruct (fold_visit_appends (preorder_children preorder kids) [])
    as (added & Heq & Hadded).
  rewrite Heq in He. simpl in He. destruct (Hadded e He) as (_ & Hid & Hq).
  destruct (proj1 (qualifies_spec _) Hq) as (i & _ & _ & Htype).
  unfold print_argument_help. rewrite Hid. split.
  - destruct (ec_node_help (arg_node e)); [reflexivity|].
    destruct (get_node_type (arg_node e)); try reflexivity; discriminate Htype.
  - intro Hstr. rewrite Hstr in Htype. discriminate Htype.
Qed.

(** X27: beneath the usage line of a Sequence variant with two children or
    more stands the help of its child 0, indented by four spaces, when that
    child can be retrieved and has help; the help attribute of the Sequence
    itself is never printed, and a Sequence with fewer than two children has
    no help line at all. *)
Theorem sequence_variant_help :
  forall ctx_name type id help desc kids,
    get_node_type_of_name type = NODE_TYPE_SEQ ->
    print_variant ctx_name (Node type id help desc kids)
    = "**" ++ ctx_name ++ "** " ++
      print_node_synopsis (Node type id help desc kids) 0 ++ LF ++
      match kids with
      | Some str_node :: _ :: _ =>
          match ec_node_help str_node with
          | Some h => "    " ++ h ++ LF
          | None => EmptyString
          end
      | _ => EmptyString
      end ++ LF /\
    (forall other_help,
        print_variant ctx_name (Node type id other_help desc kids)
        = print_variant ctx_name (Node type id help desc kids)) /\
    ((List.length kids < 2)%nat ->
     print_variant ctx_name (Node type id help desc kids)
     = "**" ++ ctx_name ++ "** " ++
       print_node_synopsis (Node type id help desc kids) 0 ++ LF ++ LF).
Proof.
  intros ctx_name type id help desc kids Htype. split; [|split].
  - unfold print_variant, get_node_type. cbn [ec_node_type_name].
    rewrite Htype. unfold ec_node_get_children_count, ec_node_get_child.
    cbn [ec_node_children].
    destruct kids as [|k0 [|k1 rest]];
      [reflexivity | destruct k0; reflexivity |].
    destruct k0 as [str_node|]; reflexivity.
  - intro other_help. unfold print_variant, get_node_type. cbn [ec_node_type_name].
    rewrite Htype. rewrite !print_node_synopsis_eq. reflexivity.
  - intro Hshort. unfold print_variant, get_node_type. cbn [ec_node_type_name].
    rewrite Htype. unfold ec_node_get_children_count. cbn [ec_node_children].
    destruct (Nat.leb_spec 2 (List.length kids)) as [Hge|_]; [lia|]. reflexivity.
Qed.
End Renderer.

(** ** The properties on the sample trees

    The sentinel id is the one of ecoli, the version string an arbitrary
    one. *)

Lemma sample_world_never_fails : never_fails sample_world.
Proof. unfold never_fails. simpl. constructor. Qed.

(** The request for route among the sample commands: the command router,
    whose id contains the name, is passed over, and the page is the one of
    the Alternation under the Sequence. *)
Lemma sequence_shape_resolution_witness :
  seq_shape_matches "no-id" "route" sample_route = true /\
  child_matches "no-id" "route" sample_router = false /\
  fst (print_man_page "no-id" "0.9" sample_cmdlist "route" sample_world) = EXIT_SUCCESS /\
  out (snd (print_man_page "no-id" "0.9" sample_cmdlist "route" sample_world))
  = print_man_page_header "0.9" "route" (Some "Manage routes.") ++
    command_details_text "no-id" "route" sample_route_alternation 0.
Proof.
  split; [reflexivity|]. split; [reflexivity|].
  destruct (sequence_shape_resolution "no-id" "0.9" sample_route "route" false
              sample_world) as (_ & _ & _ & H).
  specialize (H sample_cmdlist [Some sample_ping; Some sample_router]
                [Some (sample_leaf "str" "no-id" (Some "quit"))]
                sample_route_literal sample_route_alternation eq_refl).
  assert (Hbefore : forall m, In (Some m) [Some sample_ping; Some sample_router] ->
                              child_matches "no-id" "route" m = false).
  { intros m [E|[E|[]]]; injection E as <-; reflexivity. }
  destruct (H Hbefore eq_refl eq_refl eq_refl eq_refl sample_world_never_fails)
    as (H1 & _ & H3).
  split; [exact H1 | exact H3].
Defined.

(** A Sequence over an integer and a Sequence named route is accepted for
    route, although child 0 is no Literal and child 1 no Alternation; a
    Literal followed by an Alternation without id is not accepted for the
    sentinel, although the id of the Alternation is the requested name. *)
Lemma sequence_shape_ignores_node_types :
  (snd (fst (process_seq_node "no-id" "0.9" sample_untyped_route "route" false
               sample_world)) = true /\
   ~ documented_seq_shape "route" sample_untyped_route) /\
  (documented_seq_shape "no-id" sample_anonymous_group /\
   process_seq_node "no-id" "0.9" sample_anonymous_group "no-id" false sample_world
   = (0, false, sample_world)).
Proof.
  split; split.
  - reflexivity.
  - intros (_ & s & o & H0 & _ & Hs & _).
    injection H0 as <-. discriminate Hs.
  - split; [vm_compute; lia|].
    eexists. eexists. repeat split; reflexivity.
  - reflexivity.
Qed.

(** The command with id ping IFACE answers to ping and not to its full id. *)
Lemma command_shape_match_witness :
  snd (fst (process_cmd_node "no-id" "0.9" sample_ping "ping" false sample_world)) = true /\
  snd (fst (process_cmd_node "no-id" "0.9" sample_ping "ping IFACE" false sample_world))
  = false.
Proof.
  split.
  - apply (command_shape_match "no-id" "0.9" sample_ping "ping IFACE" "ping" sample_world);
      [reflexivity | discriminate | reflexivity | reflexivity].
  - destruct (snd (fst (process_cmd_node "no-id" "0.9" sample_ping "ping IFACE" false
                          sample_world))) eqn:E; [|reflexivity].
    apply (command_shape_match "no-id" "0.9" sample_ping "ping IFACE" "ping IFACE"
             sample_world) in E;
      [discriminate E | reflexivity | discriminate | reflexivity].
Defined.

(** The variants of route name DEST and VRF twice each: one entry each. *)
Lemma argument_collection_witness :
  never_fails sample_world /\
  fst (fst (collect_arguments "no-id" sample_route_alternation None sample_world)) = 0 /\
  map arg_id
    (vec_entries
       (snd (fst (collect_arguments "no-id" sample_route_alternation None sample_world))))
  = ["DEST"; "NH_ID"; "IFACE"; "VRF"] /\
  NoDup
    (map arg_id
       (vec_entries
          (snd (fst (collect_arguments "no-id" sample_route_alternation None
                       sample_world))))).
Proof.
  split; [exact sample_world_never_fails|].
  destruct (argument_collection "no-id" sample_route_alternation None sample_world
              sample_world_never_fails) as (H1 & H2 & H3).
  split; [exact H1|]. split; [rewrite H2; reflexivity|].
  apply H3. constructor.
Defined.

(** The page of ping: the SYNOPSIS line carries the rest of the id. *)
Lemma command_page_synopsis_witness :
  out (snd (process_cmd_node "no-id" "0.9" sample_ping "ping" false sample_world))
  = print_man_page_header "0.9" "ping" (Some "Send ICMP echo requests.") ++
    "# SYNOPSIS" ++ LF ++ LF ++ "**ping** IFACE" ++ LF ++ LF ++
    "# SEE ALSO" ++ LF ++ LF ++ "**grcli**(1)" ++ LF.
Proof.
  destruct (command_page_synopsis "no-id" "0.9" sample_ping "ping IFACE" "ping"
              sample_world eq_refl ltac:(discriminate) eq_refl eq_refl) as [H _].
  rewrite H. reflexivity.
Defined.

(** The SYNOPSIS line of the page of ping is not the bare command name. *)
Lemma command_synopsis_keeps_rest_of_id :
  snd (fst (process_cmd_node "no-id" "0.9" sample_ping "ping" false sample_world)) = true /\
  occurs ("**ping** IFACE" ++ LF)
    (out (snd (process_cmd_node "no-id" "0.9" sample_ping "ping" false sample_world)))
  = true /\
  out (snd (process_cmd_node "no-id" "0.9" sample_ping "ping" false sample_world))
  <> print_man_page_header "0.9" "ping" (Some "Send ICMP echo requests.") ++
     documented_standalone_synopsis "ping" ++
     "# SEE ALSO" ++ LF ++ LF ++ "**grcli**(1)" ++ LF.
Proof.
  split; [reflexivity|]. split; [reflexivity|].
  vm_compute. discriminate.
Qed.



Lemma sequence_synopsis_is_concatenation_witness :
  get_node_type sample_route_del = NODE_TYPE_SEQ /\
  print_node_synopsis "no-id" sample_route_del 0 = " del" ++ " _DEST_" ++ " _VRF_".
Proof.
  split; [reflexivity|].
  rewrite (sequence_synopsis_is_concatenation "no-id" sample_route_del 0 (or_introl eq_refl)).
  reflexivity.
Defined.

(** The full id of ping is no command name. *)
Lemma unknown_command_fails_witness :
  fst (print_man_page "no-id" "0.9" sample_cmdlist "ping IFACE" sample_world)
  = EXIT_FAILURE /\
  out (snd (print_man_page "no-id" "0.9" sample_cmdlist "ping IFACE" sample_world))
  = EmptyString /\
  err (snd (print_man_page "no-id" "0.9" sample_cmdlist "ping IFACE" sample_world))
  = "Error: unknown command 'ping IFACE'" ++ LF.
Proof.
  assert (Hall : forall node,
             In (Some node) (ec_node_children sample_cmdlist) ->
             child_matches "no-id" "ping IFACE" node = false).
  { intros node [E|[E|[E|[E|[]]]]]; injection E as <-; reflexivity. }
  destruct (unknown_command_fails "no-id" "0.9" sample_cmdlist "ping IFACE" sample_world
              Hall) as (H1 & _ & H2 & H3 & _).
  split; [exact H1|]. split; [exact H2|]. exact (H3 sample_world_never_fails).
Defined.

(** The second growth of the entry vector is refused: the emitter stops
    after the heading of the ARGUMENTS section and leaves no block behind. *)
Lemma allocation_failure_is_reported_witness :
  grants
    (allocations_needed "no-id"
       (preorder_children preorder (ec_node_children sample_route_alternation)) [])
    (oracle sample_tight_world) = false /\
  fst (print_command_details "no-id" "route" sample_route_alternation 0 sample_tight_world)
  = -1 /\
  err (snd (print_command_details "no-id" "route" sample_route_alternation 0
              sample_tight_world))
  = "Error: memory allocation failed" ++ LF /\
  out (snd (print_command_details "no-id" "route" sample_route_alternation 0
              sample_tight_world))
  = details_prologue "no-id" "route" sample_route_alternation 0 /\
  live (snd (print_command_details "no-id" "route" sample_route_alternation 0
               sample_tight_world)) = 0%nat.
Proof.
  split; [reflexivity|].
  destruct (allocation_failure_is_reported "no-id" "route" sample_route_alternation 0
              sample_tight_world) as (_ & Hlive & Hfail & _).
  destruct (Hfail eq_refl) as (H1 & H2 & H3).
  split; [exact H1|]. split; [exact H2|]. split; [exact H3 | exact Hlive].
Defined.

(** The entries IFACE and VRF of the command address: the interface page is
    named, the address page is not. *)
Lemma cross_reference_classification_witness :
  has_iface (classify_arguments sample_entries) = true /\
  has_vrf (classify_arguments sample_entries) = true /\
  occurs "**grcli-interface**(1)"
    (print_see_also "address" (classify_arguments sample_entries)) = true /\
  occurs "**grcli-address**(1)"
    (print_see_also "address" (classify_arguments sample_entries)) = false.
Proof.
  destruct (cross_reference_classification "no-id" sample_entries "address")
    as (H1 & H2 & _ & _ & S1 & S2 & _ & _ & _).
  assert (K1 : has_iface (classify_arguments sample_entries) = true).
  { apply H1. exists (ArgEntry "IFACE" (sample_leaf "dyn" "IFACE" None)).
    split; [now left | now left]. }
  split; [exact K1|]. split.
  - apply H2. exists (ArgEntry "VRF" (sample_leaf "uint" "VRF" None)).
    split; [right; now left | reflexivity].
  - split.
    + apply S1. split; [exact K1 | discriminate].
    + apply not_true_is_false. intro E. apply S2 in E.
      destruct E as [_ E]. now apply E.
Defined.

Lemma print_option_syntax_short_sequence_witness :
  print_option_syntax "no-id" sample_short_option SYNOPSIS_MODE = "[" /\
  print_option_syntax "no-id" sample_short_option OPTION_MODE = "#### ".
Proof.
  assert (Hcount : (ec_node_get_children_count
                      (Node "seq" (Some "no-id") None None
                         [Some (Node "or" (Some "no-id") None None
                                  [Some (sample_leaf "str" "no-id" (Some "-h"));
                                   Some (sample_leaf "str" "no-id" (Some "--help"))])])
                    < 2)%nat) by (vm_compute; lia).
  split.
  - exact (proj1 (print_option_syntax_short_sequence "no-id" sample_short_option _
                    SYNOPSIS_MODE eq_refl eq_refl Hcount)).
  - exact (proj1 (print_option_syntax_short_sequence "no-id" sample_short_option _
                    OPTION_MODE eq_refl eq_refl Hcount)).
Defined.

(** ** The further properties on the sample trees *)

Lemma optional_synopsis_witness :
  get_node_type sample_optional = NODE_TYPE_OPTION /\
  print_node_synopsis "no-id" sample_optional 0 = " [ verbose ]".
Proof.
  split; [reflexivity|].
  destruct (optional_synopsis "no-id" sample_optional 0 (or_introl eq_refl)) as [_ H].
  rewrite H; [reflexivity | vm_compute; lia].
Defined.

Lemma subset_synopsis_witness :
  get_node_type sample_subset = NODE_TYPE_SUBSET /\
  print_node_synopsis "no-id" sample_subset 0 = " [ mtu _MTU_ ] [ up ]".
Proof.
  split; [reflexivity|].
  rewrite (subset_synopsis "no-id" sample_subset 0 eq_refl). reflexivity.
Defined.

Lemma sample_route_plain_labels : plain_labels sample_route_alternation.
Proof.
  intros n Hin. vm_compute in Hin.
  repeat (destruct Hin as [<- | Hin]); try contradiction;
    (split; intros x Hx; try discriminate Hx; injection Hx as <-;
     repeat split).
Qed.

Lemma print_node_synopsis_balanced_witness :
  plain_labels sample_route_alternation /\
  count_char "("%char (print_node_synopsis "no-id" sample_route_alternation 0) = 2%nat /\
  count_char ")"%char (print_node_synopsis "no-id" sample_route_alternation 0) = 2%nat.
Proof.
  split; [exact sample_route_plain_labels|].
  destruct (print_node_synopsis_balanced "no-id" sample_route_alternation 0
              sample_route_plain_labels) as [H _].
  split; [reflexivity | rewrite <- H; reflexivity].
Defined.

Lemma print_option_syntax_closed_witness :
  (exists body,
      print_option_syntax "no-id"
        (Node "option" (Some "no-id") (Some "Trace the requests.") None
           [Some (Node "or" (Some "no-id") None None
                    [Some (sample_leaf "str" "no-id" (Some "-x"));
                     Some (sample_leaf "str" "no-id" (Some "--trace"))])])
        SYNOPSIS_MODE
      = "[" ++ body ++ "]" ++ LF) /\
  ~ (exists body,
        print_option_syntax "no-id" sample_short_option SYNOPSIS_MODE
        = "[" ++ body ++ "]" ++ LF).
Proof.
  split.
  - apply (proj1 (print_option_syntax_closed "no-id" _)).
    eexists. split; [reflexivity|]. intros [H _]. discriminate H.
  - intro H.
    apply (proj1 (print_option_syntax_closed "no-id" sample_short_option)) in H.
    destruct H as (child & Hchild & Hshort). injection Hchild as <-.
    apply Hshort. split; [reflexivity | vm_compute; lia].
Defined.

Lemma print_man_page_succeeds_iff_witness :
  never_fails sample_world /\
  fst (print_man_page "no-id" "0.9" sample_cmdlist "route" sample_world) = EXIT_SUCCESS /\
  fst (print_man_page "no-id" "0.9" sample_cmdlist "routes" sample_world) = EXIT_FAILURE.
Proof.
  split; [exact sample_world_never_fails|]. split.
  - apply (proj1 (print_man_page_succeeds_iff "no-id" "0.9" sample_cmdlist "route"
                    sample_world sample_world_never_fails)).
    exists sample_route. split; [right; right; now left | reflexivity].
  - apply (proj2 (print_man_page_succeeds_iff "no-id" "0.9" sample_cmdlist "routes"
                    sample_world sample_world_never_fails)).
    intros node [E|[E|[E|[E|[]]]]]; injection E as <-; reflexivity.
Defined.

(** The page of router: ping before it is passed over. *)
Lemma command_shape_resolution_witness :
  fst (print_man_page "no-id" "0.9" sample_cmdlist "router" sample_world) = EXIT_SUCCESS /\
  out (snd (print_man_page "no-id" "0.9" sample_cmdlist "router" sample_world))
  = print_man_page_header "0.9" "router" (Some "Show the router state.") ++
    "# SYNOPSIS" ++ LF ++ LF ++ "**router** show" ++ LF ++ LF ++
    "# SEE ALSO" ++ LF ++ LF ++ "**grcli**(1)" ++ LF.
Proof.
  assert (Hbefore : forall m, In (Some m) [Some sample_ping] ->
                              child_matches "no-id" "router" m = false).
  { intros m [E|[]]. injection E as <-. reflexivity. }
  destruct (command_shape_resolution "no-id" "0.9" sample_cmdlist [Some sample_ping]
              sample_router
              [Some sample_route; Some (sample_leaf "str" "no-id" (Some "quit"))]
              "router show" "router" sample_world eq_refl Hbefore eq_refl eq_refl eq_refl
              sample_world_never_fails) as (H1 & _ & H3).
  split; [exact H1|]. rewrite H3. reflexivity.
Defined.

Lemma collected_entries_wellformed_witness :
  ec_node_id (sample_leaf "re" "DEST" None) = Some "DEST" /\
  is_argument_type (get_node_type (sample_leaf "re" "DEST" None)) = true /\
  In (sample_leaf "re" "DEST" None) (preorder sample_route_alternation).
Proof.
  destruct (collected_entries_wellformed "no-id" sample_route_alternation None
              sample_world sample_world_never_fails
              (ArgEntry "DEST" (sample_leaf "re" "DEST" None)))
    as [H|(H1 & H2 & _ & H4)].
  - vm_compute. now left.
  - contradiction H.
  - split; [exact H2|]. split; [exact H4 | exact H1].
Defined.

Lemma collected_entries_complete_witness :
  In "VRF"
    (map arg_id
       (vec_entries
          (snd (fst (collect_arguments "no-id" sample_route_alternation None
                       sample_world))))).
Proof.
  apply (collected_entries_complete "no-id" sample_route_alternation None sample_world
           sample_world_never_fails (sample_leaf "uint" "VRF" None) "VRF").
  - vm_compute. do 7 right. now left.
  - reflexivity.
  - discriminate.
  - reflexivity.
Defined.

Lemma collect_arguments_twice_witness :
  never_fails sample_world /\
  vec_entries
    (snd (fst (collect_arguments "no-id" sample_route_alternation
                 (snd (fst (collect_arguments "no-id" sample_route_alternation None
                              sample_world)))
                 (snd (collect_arguments "no-id" sample_route_alternation None
                         sample_world)))))
  = vec_entries
      (snd (fst (collect_arguments "no-id" sample_route_alternation None sample_world))).
Proof.
  split; [exact sample_world_never_fails|].
  destruct (collect_arguments_twice "no-id" sample_route_alternation None sample_world
              sample_world_never_fails) as (_ & H & _).
  exact H.
Defined.

Lemma collect_arguments_appends_witness :
  grants (allocations_needed "no-id" (preorder sample_route_del)
            [ArgEntry "DEST" (sample_leaf "re" "DEST" None)])
    [true; false] = true /\
  exists added,
    vec_entries
      (snd (fst (collect_arguments "no-id" sample_route_del
                   (Some [ArgEntry "DEST" (sample_leaf "re" "DEST" None)])
                   sample_tight_world)))
    = ([ArgEntry "DEST" (sample_leaf "re" "DEST" None)] ++ added)%list /\
    oracle (snd (collect_arguments "no-id" sample_route_del
                   (Some [ArgEntry "DEST" (sample_leaf "re" "DEST" None)])
                   sample_tight_world))
    = skipn (List.length added) [true; false].
Proof.
  split; [reflexivity|].
  destruct (collect_arguments_appends "no-id" sample_route_del
              (Some [ArgEntry "DEST" (sample_leaf "re" "DEST" None)])
              sample_tight_world eq_refl) as (added & H1 & H2 & _).
  exists added. split; [exact H1 | exact H2].
Defined.

Lemma command_id_split_witness :
  strchr "ping IFACE" SPACE = Some 4%nat /\
  string_upto 4 "ping IFACE" ++ string_from 4 "ping IFACE" = "ping IFACE" /\
  count_char SPACE (string_upto 4 "ping IFACE") = 0%nat.
Proof.
  split; [reflexivity|].
  destruct (proj1 (command_id_split "ping IFACE") 4%nat eq_refl) as (H1 & H2 & _).
  split; [exact H1 | exact H2].
Defined.

Lemma request_with_space_matches_no_command_witness :
  (0 < count_char SPACE "ping IFACE")%nat /\
  snd (fst (process_cmd_node "no-id" "0.9" sample_ping "ping IFACE" false sample_world))
  = false.
Proof.
  assert (H : (0 < count_char SPACE "ping IFACE")%nat) by (vm_compute; lia).
  split; [exact H|].
  exact (request_with_space_matches_no_command "no-id" "0.9" sample_ping "ping IFACE"
           false sample_world H).
Defined.

Lemma classify_arguments_ids_witness :
  classify_arguments sample_entries = classify_arguments sample_entries_shuffled.
Proof.
  apply classify_arguments_ids. intro i. vm_compute. tauto.
Defined.

Lemma arguments_section_witness :
  grants (List.length (collected_variants "no-id"
                         (ec_node_children sample_route_alternation) []))
    (oracle sample_world) = true /\
  map arg_id (collected_variants "no-id" (ec_node_children sample_route_alternation) [])
  = ["DEST"; "NH_ID"; "IFACE"; "VRF"] /\
  NoDup (map arg_id (collected_variants "no-id"
                       (ec_node_children sample_route_alternation) [])) /\
  out (snd (print_command_details "no-id" "route" sample_route_alternation 0 sample_world))
  = details_prologue "no-id" "route" sample_route_alternation 0 ++
    ("#### _DEST_" ++ LF ++ LF ++
     "#### _NH_ID_" ++ LF ++ LF ++ "Unsigned integer." ++ LF ++ LF ++
     "#### _IFACE_" ++ LF ++ LF ++ "Dynamic value." ++ LF ++ LF ++
     "#### _VRF_" ++ LF ++ LF ++ "Unsigned integer." ++ LF ++ LF) ++
    "# SEE ALSO" ++ LF ++ LF ++
    "**grcli**(1), **grcli-interface**(1), **grcli-address**(1), **grcli-nexthop**(1)" ++
    LF.
Proof.
  split; [reflexivity|]. split; [reflexivity|].
  destruct (arguments_section "no-id" "route" sample_route_alternation 0 sample_world
              eq_refl) as (Hout & H & _).
  split; [exact H|]. rewrite Hout. reflexivity.
Defined.

Lemma collected_argument_help_witness :
  print_argument_help (sample_leaf "re" "DEST" None) = "#### _DEST_" ++ LF ++ LF /\
  print_argument_help (sample_leaf "uint" "VRF" None)
  = "#### _VRF_" ++ LF ++ LF ++ "Unsigned integer." ++ LF ++ LF.
Proof.
  split.
  - destruct (collected_argument_help "no-id" (ec_node_children sample_route_alternation)
                (ArgEntry "DEST" (sample_leaf "re" "DEST" None))) as [H _].
    + vm_compute. now left.
    + exact H.
  - destruct (collected_argument_help "no-id" (ec_node_children sample_route_alternation)
                (ArgEntry "VRF" (sample_leaf "uint" "VRF" None))) as [H _].
    + vm_compute. do 3 right. now left.
    + exact H.
Defined.

Lemma sequence_variant_help_witness :
  get_node_type_of_name "seq" = NODE_TYPE_SEQ /\
  print_variant "no-id" "route" sample_route_del
  = "**route**  del _DEST_ _VRF_" ++ LF ++ "    Delete a route." ++ LF ++ LF.
Proof.
  split; [reflexivity|].
  destruct (sequence_variant_help "no-id" "route" "seq" (Some "no-id") None None
              [Some (Node "str" (Some "no-id") (Some "Delete a route.") (Some "del") []);
               Some (sample_leaf "re" "DEST" None);
               Some (sample_leaf "uint" "VRF" None)] eq_refl) as [H _].
  unfold sample_route_del. rewrite H. reflexivity.
Defined.

(** The option that takes a socket path after its flag. *)
Lemma option_placeholder_upper_case_witness :
  print_option_syntax "no-id" sample_socket_option SYNOPSIS_MODE
  = "[**-s** _PATH_]" ++ LF /\
  print_option_syntax "no-id" sample_socket_option OPTION_MODE
  = "#### **-s**, **--socket** _PATH_" ++ LF ++ LF ++
    "Path to the control plane API socket." ++ LF ++ LF.
Proof.
  assert (Hcount : (2 <= ec_node_get_children_count
                          (Node "seq" (Some "no-id") None None
                             [Some (Node "or" (Some "no-id") None None
                                      [Some (sample_leaf "str" "no-id" (Some "-s"));
                                       Some (sample_leaf "str" "no-id" (Some "--socket"))]);
                              Some (sample_leaf "str" "path" (Some "<path>"))]))%nat)
    by (vm_compute; lia).
  split.
  - rewrite (option_placeholder_upper_case "no-id" sample_socket_option _ SYNOPSIS_MODE
               eq_refl eq_refl Hcount).
    reflexivity.
  - rewrite (option_placeholder_upper_case "no-id" sample_socket_option _ OPTION_MODE
               eq_refl eq_refl Hcount).
    reflexivity.
Defined.
